(** * Pending-review notifier: the GitHub service layer

    A shallow embedding of [src/github_services.py]: the credential guard,
    the paginated pull-request and timeline fetches, the reconciliation of
    assignment timestamps, the overdue evaluation, the discussion locator
    and the stale-comment selection, followed by the properties the
    specification states about them.

    Conventions.  The module-level [_TOKEN] and everything the service
    does to the outside world live in a [State] threaded through a small
    state-and-exception monad [M].  The GitHub server and the wall clock are
    a [World]: a table of responses per request and the successive readings
    of [datetime.datetime.now].  Python's [while True] loops take a fuel
    argument; running dry is the separate outcome [OutOfFuel], never a
    fabricated result. *)

From Stdlib Require Import ZArith Lia Bool Ascii String List.
From stdpp Require Import base option list strings gmap fin_maps.

Local Open Scope Z_scope.

(** ** Exceptions and outcomes *)

Inductive exn : Type :=
  | InvalidToken          (* 'Must provide a valid GitHub Personal Access Token.' *)
  | NotInitialized        (* 'Initialize the service with github_services.init_service(TOKEN).' *)
  | HTTPError             (* response.raise_for_status() *)
  | PayloadError          (* response.json() or a subscript on a body of another shape *)
  | ParserError           (* dateutil.parser.parse *)
  | UnboundLocalError     (* a local read before any assignment *)
  | TypeError             (* datetime minus None *)
  | OverflowError         (* timedelta or datetime out of range *)
  | CategoryMissing (discussion_category : string)
  | DiscussionNotFound (discussion_title : string).

Inductive outcome (A : Type) : Type :=
  | Return (a : A)
  | Raise (e : exn)
  | OutOfFuel.
Arguments Return {A} a.
Arguments Raise {A} e.
Arguments OutOfFuel {A}.

(** ** Requests sent to GitHub *)

Inductive Request : Type :=
  | GetPulls (org_name repo_name : string) (page : nat)
  | GetTimeline (org_name repo_name : string) (pr_number : Z) (page : nat)
  | QueryCategories (org_name repo_name : string)
  | QueryDiscussions (org_name repo_name category_id : string)
  | QueryComments (org_name repo_name : string) (discussion_number : Z)
  | MutationDeleteComment (comment_id : string)
  | MutationPostComment (discussion_id message : string).

(** ** Service state: the global token, the requests issued so far and the
    number of clock readings taken *)

Record State : Type := mkState {
  _TOKEN : option string;
  sent : list Request;
  ticks : nat
}.

Definition M (A : Type) : Type := State -> outcome A * State.

Definition ret {A} (a : A) : M A := fun st => (Return a, st).
Definition raise {A} (e : exn) : M A := fun st => (Raise e, st).
Definition bind {A B} (m : M A) (k : A -> M B) : M B :=
  fun st =>
    match m st with
    | (Return a, st') => k a st'
    | (Raise e, st') => (Raise e, st')
    | (OutOfFuel, st') => (OutOfFuel, st')
    end.
Definition lift {A} (o : outcome A) : M A := fun st => (o, st).

Declare Scope service_scope.
Delimit Scope service_scope with svc.
Notation "x <~ m ; k" := (bind m (fun x => k))
  (at level 20, m at level 100, k at level 200) : service_scope.
Notation "'exec' m ; k" := (bind m (fun _ => k))
  (at level 20, m at level 100, k at level 200) : service_scope.
Local Open Scope service_scope.

(** ** Credential handling *)

(** [init_service]: an absent or empty token raises before the global is
    touched; any other token is stored. *)
Definition init_service (token : option string) : M unit :=
  fun st =>
    match token with
    | None => (Raise InvalidToken, st)
    | Some t =>
        if String.eqb t EmptyString then (Raise InvalidToken, st)
        else (Return tt, mkState (Some t) (sent st) (ticks st))
    end.

(** [check_token]: the decorator.  The wrapped function runs only when
    [_TOKEN] is set. *)
Definition check_token {A} (func : M A) : M A :=
  fun st =>
    match _TOKEN st with
    | None => (Raise NotInitialized, st)
    | Some _ => func st
    end.

(** ** Dates and times

    [datetime.datetime] as the record of its fields, always in UTC, with the
    proleptic Gregorian ordinal arithmetic of the [datetime] module.  A
    [timedelta] is its total number of microseconds. *)

Record datetime : Type := mkDatetime {
  year : Z; month : Z; day : Z;
  hour : Z; minute : Z; second : Z; microsecond : Z
}.

Definition is_leap (y : Z) : bool :=
  (y mod 4 =? 0) && (negb (y mod 100 =? 0) || (y mod 400 =? 0)).

Definition DAYS_IN_MONTH (m : Z) : Z :=
  match m with
  | 1 => 31 | 2 => 28 | 3 => 31 | 4 => 30 | 5 => 31 | 6 => 30
  | 7 => 31 | 8 => 31 | 9 => 30 | 10 => 31 | 11 => 30 | 12 => 31
  | _ => -1
  end.

Definition DAYS_BEFORE_MONTH (m : Z) : Z :=
  match m with
  | 1 => 0 | 2 => 31 | 3 => 59 | 4 => 90 | 5 => 120 | 6 => 151
  | 7 => 181 | 8 => 212 | 9 => 243 | 10 => 273 | 11 => 304 | 12 => 334
  | _ => -1
  end.

Definition days_in_month (y m : Z) : Z :=
  if (m =? 2) && is_leap y then 29 else DAYS_IN_MONTH m.

Definition days_before_year (y : Z) : Z :=
  let y' := y - 1 in y' * 365 + y' / 4 - y' / 100 + y' / 400.

Definition days_before_month (y m : Z) : Z :=
  DAYS_BEFORE_MONTH m + (if (2 <? m) && is_leap y then 1 else 0).

Definition ymd2ord (y m d : Z) : Z :=
  days_before_year y + days_before_month y m + d.

(** The end of [_ord2ymd]: month and day from the zero-based day of the
    year, by an estimate of the month that is corrected when too high. *)
Definition month_and_day (n : Z) (leapyear : bool) : Z * Z :=
  let m := Z.shiftr (n + 50) 5 in
  let preceding :=
    DAYS_BEFORE_MONTH m + (if (2 <? m) && leapyear then 1 else 0) in
  if n <? preceding then
    let m := m - 1 in
    let preceding :=
      preceding - (DAYS_IN_MONTH m + (if (m =? 2) && leapyear then 1 else 0)) in
    (m, n - preceding + 1)
  else (m, n - preceding + 1).

Definition ord2ymd (n0 : Z) : Z * Z * Z :=
  let n := n0 - 1 in
  let n400 := n / 146097 in
  let n := n mod 146097 in
  let y := n400 * 400 + 1 in
  let n100 := n / 36524 in
  let n := n mod 36524 in
  let n4 := n / 1461 in
  let n := n mod 1461 in
  let n1 := n / 365 in
  let n := n mod 365 in
  let y := y + n100 * 100 + n4 * 4 + n1 in
  if (n1 =? 4) || (n100 =? 4) then (y - 1, 12, 31)
  else
    let leapyear := (n1 =? 3) && (negb (n4 =? 24) || (n100 =? 3)) in
    let md := month_and_day n leapyear in
    (y, fst md, snd md).

Definition MAXORDINAL : Z := 3652059.
Definition US_PER_SECOND : Z := 1000000.
Definition US_PER_DAY : Z := 86400 * US_PER_SECOND.

(** Whole seconds since the start of ordinal day 0, and the same in
    microseconds: the instant a UTC datetime denotes. *)
Definition to_seconds (d : datetime) : Z :=
  ((ymd2ord (year d) (month d) (day d) * 24 + hour d) * 60 + minute d) * 60
  + second d.

Definition to_micro (d : datetime) : Z :=
  to_seconds d * US_PER_SECOND + microsecond d.

(** [a - b] on two aware datetimes. *)
Definition datetime_sub (a b : datetime) : Z := to_micro a - to_micro b.

(** [timedelta(hours=h)] and [timedelta(days=n)]: the constructor refuses
    more than 999999999 days either way. *)
Definition timedelta_in_range (days : Z) : bool :=
  (-999999999 <=? days) && (days <=? 999999999).

Definition timedelta_hours (h : Z) : outcome Z :=
  if timedelta_in_range (h / 24) then Return (h * 3600 * US_PER_SECOND)
  else Raise OverflowError.

Definition timedelta_days (n : Z) : outcome Z :=
  if timedelta_in_range n then Return (n * US_PER_DAY)
  else Raise OverflowError.

(** [d - delta]: back from microseconds to fields; a result outside
    years 1..9999 raises. *)
Definition from_micro (t : Z) : outcome datetime :=
  let days := t / US_PER_DAY in
  let rest := t mod US_PER_DAY in
  if (0 <? days) && (days <=? MAXORDINAL) then
    let '(y, m, d) := ord2ymd days in
    let secs := rest / US_PER_SECOND in
    Return (mkDatetime y m d (secs / 3600) (secs mod 3600 / 60) (secs mod 60)
                       (rest mod US_PER_SECOND))
  else Raise OverflowError.

Definition datetime_minus (d : datetime) (delta : Z) : outcome datetime :=
  from_micro (to_micro d - delta).

Definition valid_datetime (d : datetime) : Prop :=
  1 <= year d <= 9999 /\ 1 <= month d <= 12 /\
  1 <= day d <= days_in_month (year d) (month d) /\
  0 <= hour d < 24 /\ 0 <= minute d < 60 /\ 0 <= second d < 60 /\
  0 <= microsecond d < US_PER_SECOND.

(** [strftime('%Y-%m-%dT%H:%M:%SZ')] as CPython gives it on Linux, where
    the C library does the rendering: month, day, hour, minute and second
    zero-padded to two digits, microseconds dropped, and the year in
    decimal with no padding, so four digits from 1000 on and fewer
    below. *)
Definition digit (n : Z) : ascii := ascii_of_N (Z.to_N (48 + n)).

Definition pad2 (n : Z) (rest : string) : string :=
  String (digit (n / 10)) (String (digit (n mod 10)) rest).

Definition pad4 (n : Z) (rest : string) : string :=
  String (digit (n / 1000)) (String (digit (n / 100 mod 10))
    (String (digit (n / 10 mod 10)) (String (digit (n mod 10)) rest))).

(** [%Y]: the digits of the year, as many as it has. *)
Definition render_year (y : Z) (rest : string) : string :=
  if y <? 10 then String (digit y) rest
  else if y <? 100 then pad2 y rest
  else if y <? 1000 then String (digit (y / 100)) (pad2 (y mod 100) rest)
  else pad4 y rest.

Definition strftime (d : datetime) : string :=
  render_year (year d) (String "-" (pad2 (month d) (String "-" (pad2 (day d)
    (String "T" (pad2 (hour d) (String ":" (pad2 (minute d)
      (String ":" (pad2 (second d) "Z")))))))))).

(** Python compares [str] values by code point; on the bytes of a string
    that is [String.ltb]. *)
Definition str_lt (a b : string) : bool := String.ltb a b.

(** ** Payloads *)

(** An entry of [pr_dict['assignees']]; [created_at] is the key the
    reconciliation adds. *)
Record AssigneeDict : Type := mkAssigneeDict {
  login : string;
  created_at : option datetime
}.

(** A pull request as the listing returns it: ['number'],
    ['user']['login'] and ['assignees']. *)
Record PrDict : Type := mkPrDict {
  number : Z;
  user : string;
  assignees : list AssigneeDict
}.

(** A timeline event: ['event'], ['assignee']['login'] and ['created_at'].
    The last two are read on "assigned" events only. *)
Record TimelineEvent : Type := mkEvent {
  event : string;
  assignee : string;
  event_created_at : string
}.

Record Category : Type := mkCategory { category_id : string; name : string }.

Record Discussion : Type := mkDiscussion {
  discussion_id : string; title : string; discussion_number : Z
}.

Record Comment : Type := mkComment { comment_id : string; createdAt : string }.

(** What [requests] hands back: a status code and a body, [None] when the
    body is not JSON of the shape the caller subscripts. *)
Record Response (A : Type) : Type := mkResponse {
  status_code : Z;
  body : option A
}.
Arguments mkResponse {A} _ _.
Arguments status_code {A} _.
Arguments body {A} _.

(** ** The domain objects

    [github_domain] is imported by the service but is not part of the
    sources at hand. *)

(** Modelled from the spec: the [github_domain] module is missing; a
    ReviewerAssignment is "reviewer identity, assignment timestamp", and a
    reviewer no "assigned" event names is left "without a usable
    timestamp". *)
Record Assignee : Type := mkAssignee {
  username : string;
  assigned_on_timestamp : option datetime
}.

(** Modelled from the spec: the [github_domain] module is missing; a
    PullRequest is "number, author identity, ordered set of reviewer
    assignments", "a plain record the core constructs and reads". *)
Record PullRequest : Type := mkPullRequest {
  pr_number : Z;
  author_username : string;
  pr_assignees : list Assignee
}.

(** Modelled from the spec: [PullRequest.from_github_response] of the
    missing [github_domain] module, building "the pull request record
    augmented with per-reviewer timestamps" from the reconciled
    dictionary. *)
Definition from_github_response (pr_dict : PrDict) : PullRequest :=
  mkPullRequest (number pr_dict) (user pr_dict)
    (map (fun a => mkAssignee (login a) (created_at a)) (assignees pr_dict)).

(** Modelled from the spec: [PullRequest.is_reviewer_assigned] of the
    missing [github_domain] module, true for a "pull request with at least
    one assigned reviewer". *)
Definition is_reviewer_assigned (pull_request : PullRequest) : bool :=
  match pr_assignees pull_request with
  | [] => false
  | _ :: _ => true
  end.

(** ** The outside world *)

Record World : Type := mkWorld {
  pulls : string -> string -> nat -> Response (list PrDict);
  timeline : string -> string -> Z -> nat -> Response (list TimelineEvent);
  categories : string -> string -> Response (list Category);
  discussions : string -> string -> string -> Response (list Discussion);
  comments : string -> string -> Z -> Response (list Comment);
  deleted : string -> Response unit;
  posted : string -> string -> Response unit;
  clock : nat -> datetime
}.

Definition obind {A B} (o : outcome A) (k : A -> outcome B) : outcome B :=
  match o with
  | Return a => k a
  | Raise e => Raise e
  | OutOfFuel => OutOfFuel
  end.

Definition append_pr (reviewer : string) (pull_request : PullRequest)
    (d : gmap string (list PullRequest)) : gmap string (list PullRequest) :=
  <[reviewer := default [] (d !! reviewer) ++ [pull_request]]> d.

Definition logged (reqs : list Request) (st : State) : State :=
  mkState (_TOKEN st) (sent st ++ reqs) (ticks st).

Definition ticked (st : State) : State :=
  mkState (_TOKEN st) (sent st) (S (ticks st)).

Section Service.

(** [dateutil.parser.parse], [None] when it raises. *)
Variable parse : string -> option datetime.
Variable w : World.

(** A network call: the request is recorded, the world answers. *)
Definition send {A} (req : Request) (resp : Response A) : M (Response A) :=
  fun st => (Return resp, logged [req] st).

Definition raise_for_status {A} (response : Response A) : M unit :=
  if (400 <=? status_code response) && (status_code response <? 600)
  then raise HTTPError else ret tt.

Definition json {A} (response : Response A) : M A :=
  match body response with
  | Some data => ret data
  | None => raise PayloadError
  end.

(** [datetime.datetime.now(datetime.timezone.utc)] *)
Definition now : M datetime :=
  fun st => (Return (clock w (ticks st)), ticked st).

(** *** Timeline reconciliation *)

(** The loop of [get_pull_request_dict_with_timestamp] over
    [pr_dict['assignees']]: each entry whose login is the event's gets the
    parsed creation time of the event. *)
Fixpoint stamp_assignees (l : list AssigneeDict) (ev : TimelineEvent)
    : outcome (list AssigneeDict) :=
  match l with
  | [] => Return []
  | a :: rest =>
      if String.eqb (assignee ev) (login a) then
        match parse (event_created_at ev) with
        | None => Raise ParserError
        | Some t =>
            obind (stamp_assignees rest ev)
              (fun rest' => Return (mkAssigneeDict (login a) (Some t) :: rest'))
        end
      else
        obind (stamp_assignees rest ev) (fun rest' => Return (a :: rest'))
  end.

Definition get_pull_request_dict_with_timestamp
    (pr_dict : PrDict) (ev : TimelineEvent) : outcome PrDict :=
  obind (stamp_assignees (assignees pr_dict) ev)
    (fun l => Return (mkPrDict (number pr_dict) (user pr_dict) l)).

(** The [for event in timeline_subset] loop.  [pr_dict] is the dictionary
    being mutated in place; [updated_pr_dict] is the local that is bound,
    to that same dictionary, by the first "assigned" event only. *)
Fixpoint scan_events (timeline_subset : list TimelineEvent)
    (pr_dict : PrDict) (updated_pr_dict : option PrDict)
    : outcome (PrDict * option PrDict) :=
  match timeline_subset with
  | [] => Return (pr_dict, updated_pr_dict)
  | ev :: rest =>
      if negb (String.eqb (event ev) "assigned") then
        scan_events rest pr_dict updated_pr_dict
      else
        obind (get_pull_request_dict_with_timestamp pr_dict ev)
          (fun d => scan_events rest d (Some d))
  end.

(** The [while True] loop of [get_pull_request_object_from_dict]. *)
Fixpoint timeline_loop (fuel : nat) (org_name repo_name : string)
    (pr_num : Z) (page_number : nat)
    (pr_dict : PrDict) (updated_pr_dict : option PrDict)
    : M (PrDict * option PrDict) :=
  match fuel with
  | O => lift OutOfFuel
  | S fuel' =>
      response <~ send (GetTimeline org_name repo_name pr_num page_number)
                       (timeline w org_name repo_name pr_num page_number);
      exec raise_for_status response;
      timeline_subset <~ json response;
      match timeline_subset with
      | [] => ret (pr_dict, updated_pr_dict)
      | _ :: _ =>
          locals <~ lift (scan_events timeline_subset pr_dict updated_pr_dict);
          timeline_loop fuel' org_name repo_name pr_num (S page_number)
            (fst locals) (snd locals)
      end
  end.

Definition get_pull_request_object_from_dict (fuel : nat)
    (org_name repo_name : string) (pr_dict : PrDict) : M PullRequest :=
  check_token (
    locals <~
        timeline_loop fuel org_name repo_name (number pr_dict) 1%nat pr_dict None;
    match snd locals with
    | None => raise UnboundLocalError
    | Some d => ret (from_github_response d)
    end).

(** *** Overdue evaluation *)

(** The [for reviewer in pull_request.assignees] loop.  The clock is read
    and the subtraction made for every reviewer; the threshold is built
    only once the reviewer is known not to be the author. *)
Fixpoint scan_reviewers (max_waiting_time_in_hours : Z)
    (pull_request : PullRequest) (reviewers : list Assignee)
    (reviewer_to_assigned_prs : gmap string (list PullRequest))
    : M (gmap string (list PullRequest)) :=
  match reviewers with
  | [] => ret reviewer_to_assigned_prs
  | reviewer :: rest =>
      t <~ now;
      pending_review_time <~
        lift (match assigned_on_timestamp reviewer with
              | None => Raise TypeError
              | Some ts => Return (datetime_sub t ts)
              end);
      if negb (String.eqb (username reviewer) (author_username pull_request))
      then
        threshold <~ lift (timedelta_hours max_waiting_time_in_hours);
        if threshold <=? pending_review_time then
          scan_reviewers max_waiting_time_in_hours pull_request rest
            (append_pr (username reviewer) pull_request reviewer_to_assigned_prs)
        else
          scan_reviewers max_waiting_time_in_hours pull_request rest
            reviewer_to_assigned_prs
      else
        scan_reviewers max_waiting_time_in_hours pull_request rest
          reviewer_to_assigned_prs
  end.

(** The [for pull_request in pull_requests] loop. *)
Fixpoint scan_pull_requests (max_waiting_time_in_hours : Z)
    (pull_requests : list PullRequest)
    (reviewer_to_assigned_prs : gmap string (list PullRequest))
    : M (gmap string (list PullRequest)) :=
  match pull_requests with
  | [] => ret reviewer_to_assigned_prs
  | pull_request :: rest =>
      if negb (is_reviewer_assigned pull_request) then
        scan_pull_requests max_waiting_time_in_hours rest reviewer_to_assigned_prs
      else
        d <~ scan_reviewers max_waiting_time_in_hours pull_request
               (pr_assignees pull_request) reviewer_to_assigned_prs;
        scan_pull_requests max_waiting_time_in_hours rest d
  end.

(** The list comprehension that builds [pull_requests]. *)
Fixpoint build_pull_requests (fuel : nat) (org_name repo_name : string)
    (pr_subset : list PrDict) : M (list PullRequest) :=
  match pr_subset with
  | [] => ret []
  | pull_request :: rest =>
      p <~ get_pull_request_object_from_dict fuel org_name repo_name pull_request;
      ps <~ build_pull_requests fuel org_name repo_name rest;
      ret (p :: ps)
  end.

(** The [while True] loop of [get_prs_assigned_to_reviewers]. *)
Fixpoint pulls_loop (fuel : nat) (org_name repo_name : string)
    (max_waiting_time_in_hours : Z) (page_number : nat)
    (reviewer_to_assigned_prs : gmap string (list PullRequest))
    : M (gmap string (list PullRequest)) :=
  match fuel with
  | O => lift OutOfFuel
  | S fuel' =>
      response <~ send (GetPulls org_name repo_name page_number)
                       (pulls w org_name repo_name page_number);
      exec raise_for_status response;
      pr_subset <~ json response;
      match pr_subset with
      | [] => ret reviewer_to_assigned_prs
      | _ :: _ =>
          pull_requests <~ build_pull_requests fuel' org_name repo_name pr_subset;
          d <~ scan_pull_requests max_waiting_time_in_hours pull_requests
                 reviewer_to_assigned_prs;
          pulls_loop fuel' org_name repo_name max_waiting_time_in_hours
            (S page_number) d
      end
  end.

Definition get_prs_assigned_to_reviewers (fuel : nat)
    (org_name repo_name : string) (max_waiting_time_in_hours : Z)
    : M (gmap string (list PullRequest)) :=
  check_token
    (pulls_loop fuel org_name repo_name max_waiting_time_in_hours 1%nat ∅).

(** *** Discussion locator *)

Definition _get_discussion_data (org_name repo_name : string)
    (discussion_category discussion_title : string) : M (string * Z) :=
  check_token (
    response <~ send (QueryCategories org_name repo_name)
                     (categories w org_name repo_name);
    discussion_categories <~ json response;
    match find (fun c => String.eqb (name c) discussion_category)
               discussion_categories with
    | None => raise (CategoryMissing discussion_category)
    | Some category =>
        response <~ send (QueryDiscussions org_name repo_name (category_id category))
                         (discussions w org_name repo_name (category_id category));
        discussions <~ json response;
        match find (fun d => String.eqb (title d) discussion_title) discussions with
        | None => raise (DiscussionNotFound discussion_title)
        | Some discussion =>
            ret (discussion_id discussion, discussion_number discussion)
        end
    end).

(** *** Comment lifecycle *)

Definition DELETE_COMMENTS_BEFORE_IN_DAYS : Z := 60.

Definition _get_past_time (days : Z) : M string :=
  t <~ now;
  delta <~ lift (timedelta_days days);
  past <~ lift (datetime_minus t delta);
  ret (strftime past).

(** The [for comment in discussion_comments] loop with its [break]. *)
Fixpoint collect_old_comment_ids (discussion_comments : list Comment)
    (delete_comments_before_in_days : string) (comment_ids : list string)
    : list string :=
  match discussion_comments with
  | [] => comment_ids
  | comment :: rest =>
      if str_lt (createdAt comment) delete_comments_before_in_days then
        collect_old_comment_ids rest delete_comments_before_in_days
          (comment_ids ++ [comment_id comment])
      else comment_ids
  end.

Definition _get_old_comment_ids (org_name repo_name : string)
    (discussion_number : Z) : M (list string) :=
  response <~ send (QueryComments org_name repo_name discussion_number)
                   (comments w org_name repo_name discussion_number);
  exec raise_for_status response;
  discussion_comments <~ json response;
  delete_comments_before_in_days <~ _get_past_time DELETE_COMMENTS_BEFORE_IN_DAYS;
  ret (collect_old_comment_ids discussion_comments
         delete_comments_before_in_days []).

Definition _delete_comment (comment_id : string) : M unit :=
  response <~ send (MutationDeleteComment comment_id) (deleted w comment_id);
  raise_for_status response.

Definition _post_comment (discussion_id message : string) : M unit :=
  response <~ send (MutationPostComment discussion_id message)
                   (posted w discussion_id message);
  raise_for_status response.

Fixpoint delete_all (comment_ids : list string) : M unit :=
  match comment_ids with
  | [] => ret tt
  | comment_id :: rest => exec _delete_comment comment_id; delete_all rest
  end.

Definition delete_discussion_comments (org_name repo_name : string)
    (discussion_category discussion_title : string) : M unit :=
  check_token (
    data <~ _get_discussion_data org_name repo_name
              discussion_category discussion_title;
    comment_ids <~ _get_old_comment_ids org_name repo_name (snd data);
    delete_all comment_ids).

Definition add_discussion_comments (org_name repo_name : string)
    (discussion_category discussion_title message : string) : M unit :=
  check_token (
    data <~ _get_discussion_data org_name repo_name
              discussion_category discussion_title;
    _post_comment (fst data) message).

End Service.

(** ** Reference definitions used by the statements *)

(** The last event of a timeline, in arrival order, that assigns [who], and
    the first one. *)
Fixpoint last_assigned (events : list TimelineEvent) (who : string)
    : option TimelineEvent :=
  match events with
  | [] => None
  | ev :: rest =>
      match last_assigned rest who with
      | Some e => Some e
      | None =>
          if String.eqb (event ev) "assigned" && String.eqb (assignee ev) who
          then Some ev else None
      end
  end.

Definition first_assigned (events : list TimelineEvent) (who : string)
    : option TimelineEvent :=
  find (fun ev => String.eqb (event ev) "assigned" && String.eqb (assignee ev) who)
       events.

Definition is_assigned (ev : TimelineEvent) : bool :=
  String.eqb (event ev) "assigned".

(** What one "assigned" event does to one entry of the assignee list. *)
Definition stamp_one (parse : string -> option datetime)
    (ev : TimelineEvent) (a : AssigneeDict) : AssigneeDict :=
  if String.eqb (assignee ev) (login a)
  then mkAssigneeDict (login a) (parse (event_created_at ev))
  else a.

(** What a whole timeline does to it: the last event assigning that login
    decides. *)
Definition stamped (parse : string -> option datetime)
    (events : list TimelineEvent) (a : AssigneeDict) : AssigneeDict :=
  match last_assigned events (login a) with
  | Some ev => mkAssigneeDict (login a) (parse (event_created_at ev))
  | None => a
  end.

(** A successful response: [raise_for_status] lets it through. *)
Definition success {A} (r : Response A) : Prop :=
  status_code r < 400 \/ 600 <= status_code r.

(** The server holds a timeline of exactly [pages], all non-empty, starting
    at page [first], followed by an empty page. *)
Definition serves_timeline (w : World) (org_name repo_name : string)
    (pr_num : Z) (first : nat) (pages : list (list TimelineEvent)) : Prop :=
  Forall (fun page => page <> []) pages /\
  (forall i page, pages !! i = Some page ->
     success (timeline w org_name repo_name pr_num (first + i)%nat) /\
     body (timeline w org_name repo_name pr_num (first + i)%nat) = Some page) /\
  success (timeline w org_name repo_name pr_num (first + length pages)%nat) /\
  body (timeline w org_name repo_name pr_num (first + length pages)%nat) = Some [].

(** The stale-comment filter as the specification words it, on parsed
    datetimes compared as instants: the ids of the leading comments created
    strictly before the cutoff, up to the first one that is not. *)
Fixpoint reference_old_comment_ids (discussion_comments : list (string * datetime))
    (cutoff : datetime) : list string :=
  match discussion_comments with
  | [] => []
  | (i, created) :: rest =>
      if to_seconds created <? to_seconds cutoff
      then i :: reference_old_comment_ids rest cutoff
      else []
  end.

Definition render_comment (c : string * datetime) : Comment :=
  mkComment (fst c) (strftime (snd c)).

(** ** Sample data *)

Definition digit_value (c : ascii) : option Z :=
  let n := Z.of_N (N_of_ascii c) in
  if (48 <=? n) && (n <=? 57) then Some (n - 48) else None.

Definition two_digits (a b : ascii) : option Z :=
  match digit_value a, digit_value b with
  | Some x, Some y => Some (10 * x + y)
  | _, _ => None
  end.

(** A stand-in for [dateutil.parser.parse] on the one format GitHub sends,
    [YYYY-MM-DDTHH:MM:SSZ]; anything else is refused. *)
Definition iso_parse (s : string) : option datetime :=
  match list_ascii_of_string s with
  | [y1; y2; y3; y4; "-"; m1; m2; "-"; d1; d2; "T"; h1; h2; ":"; n1; n2; ":"; s1; s2; "Z"]%char =>
      match two_digits y1 y2, two_digits y3 y4, two_digits m1 m2,
            two_digits d1 d2, two_digits h1 h2, two_digits n1 n2,
            two_digits s1 s2 with
      | Some c, Some y, Some m, Some d, Some h, Some n, Some s =>
          Some (mkDatetime (100 * c + y) m d h n s 0)
      | _, _, _, _, _, _, _ => None
      end
  | _ => None
  end.

Definition ok {A} (data : A) : Response A := mkResponse 200 (Some data).

Definition quiet_world : World :=
  mkWorld (fun _ _ _ => ok []) (fun _ _ _ _ => ok []) (fun _ _ => ok [])
          (fun _ _ _ => ok []) (fun _ _ _ => ok []) (fun _ => ok tt)
          (fun _ _ => ok tt) (fun _ => mkDatetime 2024 3 1 13 0 0 0).

(** Pull request 42 by alice: bob is assigned at 10:00, unassigned, and
    assigned again at 12:00; the clock reads 13:00. *)
Definition pr42 : PrDict :=
  mkPrDict 42 "alice" [mkAssigneeDict "bob" None; mkAssigneeDict "alice" None].

Definition pr42_timeline (page : nat) : list TimelineEvent :=
  match page with
  | 1%nat => [mkEvent "assigned" "bob" "2024-03-01T10:00:00Z";
              mkEvent "assigned" "alice" "2024-03-01T10:00:00Z";
              mkEvent "unassigned" "bob" "2024-03-01T11:00:00Z"]
  | 2%nat => [mkEvent "commented" "" "2024-03-01T11:30:00Z";
              mkEvent "assigned" "bob" "2024-03-01T12:00:00Z"]
  | _ => []
  end.

Definition scenario_world : World :=
  mkWorld
    (fun _ _ page => match page with 1%nat => ok [pr42] | _ => ok [] end)
    (fun _ _ _ page => ok (pr42_timeline page))
    (fun _ _ => ok []) (fun _ _ _ => ok []) (fun _ _ _ => ok [])
    (fun _ => ok tt) (fun _ _ => ok tt)
    (fun _ => mkDatetime 2024 3 1 13 0 0 0).

Definition ready : State := mkState (Some "ghp_token") [] 0.
Definition fresh : State := mkState None [] 0.

(** A pull request with a reviewer and an empty timeline. *)
Definition pr7 : PrDict := mkPrDict 7 "alice" [mkAssigneeDict "bob" None].

Definition unassigned_world : World :=
  mkWorld
    (fun _ _ page => match page with 1%nat => ok [pr7] | _ => ok [] end)
    (fun _ _ _ _ => ok [])
    (fun _ _ => ok []) (fun _ _ _ => ok []) (fun _ _ _ => ok [])
    (fun _ => ok tt) (fun _ _ => ok tt)
    (fun _ => mkDatetime 2024 3 1 13 0 0 0).

(** Both GraphQL lookups of the locator answered with a server error whose
    body nevertheless carries the nodes. *)
Definition failing_graphql_world : World :=
  mkWorld
    (fun _ _ _ => ok []) (fun _ _ _ _ => ok [])
    (fun _ _ => mkResponse 500 (Some [mkCategory "C_1" "Reviews"]))
    (fun _ _ _ => mkResponse 502 (Some [mkDiscussion "D_1" "Pending reviews" 5]))
    (fun _ _ _ => mkResponse 500 (Some []))
    (fun _ => ok tt) (fun _ _ => ok tt)
    (fun _ => mkDatetime 2024 3 1 13 0 0 0).

(** Pull request 42 once its timeline has been folded in. *)
Definition pr42_reconciled : PullRequest :=
  mkPullRequest 42 "alice"
    [mkAssignee "bob" (Some (mkDatetime 2024 3 1 12 0 0 0));
     mkAssignee "alice" (Some (mkDatetime 2024 3 1 10 0 0 0))].

(** The properties of the returned mapping that the scan maintains. *)
Definition no_self_review (d : gmap string (list PullRequest)) : Prop :=
  forall reviewer prs pull_request,
    d !! reviewer = Some prs -> pull_request ∈ prs ->
    author_username pull_request <> reviewer.

Definition no_empty_entry (d : gmap string (list PullRequest)) : Prop :=
  forall reviewer prs, d !! reviewer = Some prs -> prs <> [].

(** A discussion with seven comments on 11 March 2024: five from
    1 January, one from 1 March, and a last one from 2 January that the
    page lists after it. *)
Definition seven_comments : list Comment :=
  [mkComment "c1" "2024-01-01T08:00:00Z"; mkComment "c2" "2024-01-01T09:00:00Z";
   mkComment "c3" "2024-01-01T10:00:00Z"; mkComment "c4" "2024-01-01T11:00:00Z";
   mkComment "c5" "2024-01-01T12:00:00Z"; mkComment "c6" "2024-03-01T12:00:00Z";
   mkComment "c7" "2024-01-02T12:00:00Z"].

(** The same seven comments with their creation times as datetimes. *)
Definition seven_dated : list (string * datetime) :=
  [("c1"%string, mkDatetime 2024 1 1 8 0 0 0);
   ("c2"%string, mkDatetime 2024 1 1 9 0 0 0);
   ("c3"%string, mkDatetime 2024 1 1 10 0 0 0);
   ("c4"%string, mkDatetime 2024 1 1 11 0 0 0);
   ("c5"%string, mkDatetime 2024 1 1 12 0 0 0);
   ("c6"%string, mkDatetime 2024 3 1 12 0 0 0);
   ("c7"%string, mkDatetime 2024 1 2 12 0 0 0)].

Definition comments_world : World :=
  mkWorld
    (fun _ _ _ => ok []) (fun _ _ _ _ => ok [])
    (fun _ _ => ok [mkCategory "C_1" "Reviews"])
    (fun _ _ _ => ok [mkDiscussion "D_1" "Pending reviews" 5])
    (fun _ _ _ => ok seven_comments)
    (fun _ => ok tt) (fun _ _ => ok tt)
    (fun _ => mkDatetime 2024 3 11 13 0 0 250000).

(** Lexicographic combination of two comparisons. *)
Definition lex (c rest : comparison) : comparison :=
  match c with
  | Eq => rest
  | Lt => Lt
  | Gt => Gt
  end.

(** Datetimes compared field by field, microseconds left out. *)
Definition compare_fields (a b : datetime) : comparison :=
  lex (year a ?= year b) (lex (month a ?= month b) (lex (day a ?= day b)
    (lex (hour a ?= hour b) (lex (minute a ?= minute b) (second a ?= second b))))).

(** A month and a day that exist in a year of the given kind. *)
Definition month_and_day_ok (leapyear : bool) (md : Z * Z) : bool :=
  (1 <=? fst md) && (fst md <=? 12) && (1 <=? snd md) &&
  (snd md <=? (if (fst md =? 2) && leapyear then 29 else DAYS_IN_MONTH (fst md))).

(** A world in which the category exists but holds no discussion. *)
Definition no_discussion_world : World :=
  mkWorld
    (fun _ _ _ => ok []) (fun _ _ _ _ => ok [])
    (fun _ _ => ok [mkCategory "C_0" "General"; mkCategory "C_1" "Reviews";
                    mkCategory "C_2" "Reviews"])
    (fun _ _ _ => ok [])
    (fun _ _ _ => ok []) (fun _ => ok tt) (fun _ _ => ok tt)
    (fun _ => mkDatetime 2024 3 11 13 0 0 250000).

(** A world with two categories and two discussions of the wanted names. *)
Definition twice_world : World :=
  mkWorld
    (fun _ _ _ => ok []) (fun _ _ _ _ => ok [])
    (fun _ _ => ok [mkCategory "C_0" "General"; mkCategory "C_1" "Reviews";
                    mkCategory "C_2" "Reviews"])
    (fun _ _ _ => ok [mkDiscussion "D_0" "Welcome" 3;
                      mkDiscussion "D_1" "Pending reviews" 5;
                      mkDiscussion "D_2" "Pending reviews" 8])
    (fun _ _ _ => ok seven_comments)
    (fun _ => ok tt) (fun _ _ => ok tt)
    (fun _ => mkDatetime 2024 3 11 13 0 0 250000).

(** The comments world again, where deleting comment c3 is refused and
    posting is refused. *)
Definition refusing_world : World :=
  mkWorld
    (fun _ _ _ => ok []) (fun _ _ _ _ => ok [])
    (fun _ _ => ok [mkCategory "C_1" "Reviews"])
    (fun _ _ _ => ok [mkDiscussion "D_1" "Pending reviews" 5])
    (fun _ _ _ => ok seven_comments)
    (fun i => if String.eqb i "c3" then mkResponse 403 None else ok tt)
    (fun _ _ => mkResponse 403 None)
    (fun _ => mkDatetime 2024 3 11 13 0 0 250000).

(** A server that answers the first page of each listing and refuses the
    next. *)
Definition throttled_world : World :=
  mkWorld
    (fun _ _ page => match page with 1%nat => ok [pr42] | _ => mkResponse 403 None end)
    (fun _ _ _ page =>
       match page with 1%nat => ok (pr42_timeline 1) | _ => mkResponse 502 None end)
    (fun _ _ => ok []) (fun _ _ _ => ok []) (fun _ _ _ => ok [])
    (fun _ => ok tt) (fun _ _ => ok tt)
    (fun _ => mkDatetime 2024 3 1 13 0 0 0).

(** What an operation may do to the state: keep the token, add to the
    requests sent, advance the clock count. *)
Definition steady (st st' : State) : Prop :=
  _TOKEN st' = _TOKEN st /\
  (exists more, sent st' = sent st ++ more) /\
  (ticks st <= ticks st')%nat.

Definition keeps {A} (m : M A) : Prop := forall st, steady st (snd (m st)).

(** Every list of [d] is still there in [d'], as the beginning of the list
    under the same key. *)
Definition extends (d d' : gmap string (list PullRequest)) : Prop :=
  forall reviewer prs, d !! reviewer = Some prs ->
    exists more, d' !! reviewer = Some (prs ++ more).

(** Every listed pull request has the key among its assignees, not as its
    author, with a timestamp that some reading of the clock found at least
    [threshold] microseconds old. *)
Definition all_judged_overdue (w : World) (threshold : Z)
    (d : gmap string (list PullRequest)) : Prop :=
  forall reviewer prs pull_request,
    d !! reviewer = Some prs -> pull_request ∈ prs ->
    exists r ts n,
      r ∈ pr_assignees pull_request /\ username r = reviewer /\
      reviewer <> author_username pull_request /\
      assigned_on_timestamp r = Some ts /\
      threshold <= datetime_sub (clock w n) ts.

Definition advanced (n : nat) (st : State) : State :=
  mkState (_TOKEN st) (sent st) (ticks st + n).

(** The month and day found for day [n] of a year count back to [n]. *)
Definition month_and_day_counts_back (leapyear : bool) (n : Z) : bool :=
  let md := month_and_day n leapyear in
  DAYS_BEFORE_MONTH (fst md) + (if (2 <? fst md) && leapyear then 1 else 0) + snd md
  =? n + 1.

(** Comments listed oldest first: no comment has a creation time below
    that of a comment listed before it. *)
Definition ascending (discussion_comments : list Comment) : Prop :=
  forall i j a b, (i < j)%nat ->
    discussion_comments !! i = Some a -> discussion_comments !! j = Some b ->
    str_lt (createdAt b) (createdAt a) = false.

(** An operation that does not answer with the not-initialised error when
    the token is set. *)
Definition passes_the_guard {A} (m : M A) : Prop :=
  forall st, _TOKEN st <> None -> fst (m st) <> Raise NotInitialized.


(** A clock that reads 1 March 999. *)
Definition ancient_world : World :=
  mkWorld
    (fun _ _ _ => ok []) (fun _ _ _ _ => ok []) (fun _ _ => ok [])
    (fun _ _ _ => ok []) (fun _ _ _ => ok []) (fun _ => ok tt)
    (fun _ _ => ok tt) (fun _ => mkDatetime 999 3 1 13 0 0 0).

(** * Properties *)

Example strftime_sample :
  strftime (mkDatetime 2023 1 5 7 8 9 123456) = "2023-01-05T07:08:09Z"%string.
Proof. reflexivity. Qed.

Example strftime_short_years :
  strftime (mkDatetime 999 3 1 13 0 0 0) = "999-03-01T13:00:00Z"%string /\
  strftime (mkDatetime 87 3 1 13 0 0 0) = "87-03-01T13:00:00Z"%string /\
  strftime (mkDatetime 5 3 1 13 0 0 0) = "5-03-01T13:00:00Z"%string /\
  strftime (mkDatetime 1000 3 1 13 0 0 0) = "1000-03-01T13:00:00Z"%string.
Proof. repeat split; reflexivity. Qed.

Example ord2ymd_sample :
  ord2ymd (ymd2ord 2024 2 29) = (2024, 2, 29) /\
  ord2ymd (ymd2ord 2023 12 31) = (2023, 12, 31) /\
  ord2ymd 1 = (1, 1, 1) /\ ord2ymd MAXORDINAL = (9999, 12, 31).
Proof. repeat split; reflexivity. Qed.

(** ** The monad and the transport *)

Lemma bind_return {A B} (m : M A) (k : A -> M B) st a st' :
  m st = (Return a, st') -> bind m k st = k a st'.
Proof. unfold bind. intros ->. reflexivity. Qed.

Lemma bind_raise {A B} (m : M A) (k : A -> M B) st e st' :
  m st = (Raise e, st') -> bind m k st = (Raise e, st').
Proof. unfold bind. intros ->. reflexivity. Qed.

Lemma raise_for_status_success {A} (r : Response A) st :
  success r -> raise_for_status r st = (Return tt, st).
Proof.
  intros Hs. unfold raise_for_status, success in *.
  destruct (400 <=? status_code r) eqn:E1; destruct (status_code r <? 600) eqn:E2;
    simpl; try reflexivity.
  apply Z.leb_le in E1. apply Z.ltb_lt in E2. lia.
Qed.

Lemma raise_for_status_failure {A} (r : Response A) st :
  ~ success r -> raise_for_status r st = (Raise HTTPError, st).
Proof.
  intros Hs. unfold raise_for_status, success in *.
  destruct (400 <=? status_code r) eqn:E1; destruct (status_code r <? 600) eqn:E2;
    simpl; try reflexivity.
  - apply Z.leb_le in E1. apply Z.ltb_ge in E2. lia.
  - apply Z.leb_gt in E1. lia.
  - apply Z.leb_gt in E1. lia.
Qed.

Lemma logged_logged reqs1 reqs2 st :
  logged reqs2 (logged reqs1 st) = logged (reqs1 ++ reqs2) st.
Proof. unfold logged. simpl. by rewrite app_assoc. Qed.

(** ** Credential guard *)

(** C7.  Before [init_service] has stored a token, every operation wrapped
    in [check_token] raises the not-initialized error at once and leaves the
    state, hence the list of requests sent, as it was: no network call is
    made.  [init_service] itself raises on an absent and on an empty token
    and leaves the state, hence the unset token, untouched. *)
Theorem uninitialized_service_is_rejected
    (parse : string -> option datetime) (w : World) (fuel : nat)
    (org_name repo_name discussion_category discussion_title message : string)
    (max_waiting_time_in_hours : Z) (pr_dict : PrDict) (st : State) :
  _TOKEN st = None ->
  get_prs_assigned_to_reviewers parse w fuel org_name repo_name
      max_waiting_time_in_hours st = (Raise NotInitialized, st) /\
  get_pull_request_object_from_dict parse w fuel org_name repo_name pr_dict st
    = (Raise NotInitialized, st) /\
  _get_discussion_data w org_name repo_name discussion_category discussion_title st
    = (Raise NotInitialized, st) /\
  delete_discussion_comments w org_name repo_name discussion_category
      discussion_title st = (Raise NotInitialized, st) /\
  add_discussion_comments w org_name repo_name discussion_category
      discussion_title message st = (Raise NotInitialized, st) /\
  init_service None st = (Raise InvalidToken, st) /\
  init_service (Some EmptyString) st = (Raise InvalidToken, st) /\
  _TOKEN (snd (init_service None st)) = None /\
  _TOKEN (snd (init_service (Some EmptyString) st)) = None.
Proof.
  intros Htok.
  unfold get_prs_assigned_to_reviewers, get_pull_request_object_from_dict,
    _get_discussion_data, delete_discussion_comments, add_discussion_comments,
    check_token.
  rewrite Htok. simpl. repeat split; assumption.
Qed.

Lemma uninitialized_service_is_rejected_witness :
  _TOKEN fresh = None /\
  get_prs_assigned_to_reviewers iso_parse scenario_world 9 "oppia" "oppia" 24 fresh
    = (Raise NotInitialized, fresh) /\
  sent (snd (get_prs_assigned_to_reviewers iso_parse scenario_world 9
               "oppia" "oppia" 24 fresh)) = [].
Proof.
  split; [reflexivity|].
  destruct (uninitialized_service_is_rejected iso_parse scenario_world 9
              "oppia" "oppia" "Reviews" "Pending reviews" "hello" 24 pr42 fresh
              eq_refl) as [H _].
  split; [exact H | rewrite H; reflexivity].
Defined.

(** Once a token is stored the guard lets the call through. *)
Lemma init_service_stores token st :
  token <> EmptyString ->
  init_service (Some token) st = (Return tt, mkState (Some token) (sent st) (ticks st)).
Proof.
  intros Hne. unfold init_service.
  destruct (String.eqb token EmptyString) eqn:E; [|reflexivity].
  apply String.eqb_eq in E. contradiction.
Qed.

(** ** Pagination *)

Section Pagination.

Variable parse : string -> option datetime.
Variable w : World.
Variables org_name repo_name : string.

Lemma timeline_loop_empty fuel pr_num page pr_dict updated st :
  success (timeline w org_name repo_name pr_num page) ->
  body (timeline w org_name repo_name pr_num page) = Some [] ->
  timeline_loop parse w (S fuel) org_name repo_name pr_num page pr_dict updated st
  = (Return (pr_dict, updated),
     logged [GetTimeline org_name repo_name pr_num page] st).
Proof.
  intros Hs Hb. cbn [timeline_loop]. unfold bind at 1. unfold send.
  unfold bind at 1. rewrite raise_for_status_success by assumption.
  unfold bind, json. rewrite Hb. reflexivity.
Qed.

Lemma timeline_loop_step fuel pr_num page pr_dict updated st ev evs locals :
  success (timeline w org_name repo_name pr_num page) ->
  body (timeline w org_name repo_name pr_num page) = Some (ev :: evs) ->
  scan_events parse (ev :: evs) pr_dict updated = Return locals ->
  timeline_loop parse w (S fuel) org_name repo_name pr_num page pr_dict updated st
  = timeline_loop parse w fuel org_name repo_name pr_num (S page)
      (fst locals) (snd locals)
      (logged [GetTimeline org_name repo_name pr_num page] st).
Proof.
  intros Hs Hb Hscan. cbn [timeline_loop]. unfold bind at 1. unfold send.
  unfold bind at 1. rewrite raise_for_status_success by assumption.
  unfold bind at 1. unfold json at 1. rewrite Hb. unfold ret at 1.
  unfold bind at 1. unfold lift at 1. rewrite Hscan. reflexivity.
Qed.

Lemma pulls_loop_empty fuel max_waiting_time_in_hours page acc st :
  success (pulls w org_name repo_name page) ->
  body (pulls w org_name repo_name page) = Some [] ->
  pulls_loop parse w (S fuel) org_name repo_name max_waiting_time_in_hours
    page acc st
  = (Return acc, logged [GetPulls org_name repo_name page] st).
Proof.
  intros Hs Hb. cbn [pulls_loop]. unfold bind at 1. unfold send.
  unfold bind at 1. rewrite raise_for_status_success by assumption.
  unfold bind, json. rewrite Hb. reflexivity.
Qed.

Lemma scan_events_app evs1 evs2 pr_dict updated :
  scan_events parse (evs1 ++ evs2) pr_dict updated
  = obind (scan_events parse evs1 pr_dict updated)
      (fun locals => scan_events parse evs2 (fst locals) (snd locals)).
Proof.
  revert pr_dict updated. induction evs1 as [|ev evs1 IH]; intros d u; simpl.
  - reflexivity.
  - destruct (negb (String.eqb (event ev) "assigned")).
    + apply IH.
    + destruct (get_pull_request_dict_with_timestamp parse d ev); simpl;
        [apply IH | reflexivity | reflexivity].
Qed.

(** A whole timeline: the pages are requested in order, one request each,
    the empty page is the last request, and the events are folded as one
    list. *)
Lemma timeline_loop_serves pages : forall fuel pr_num first pr_dict updated st locals,
  serves_timeline w org_name repo_name pr_num first pages ->
  scan_events parse (concat pages) pr_dict updated = Return locals ->
  (length pages < fuel)%nat ->
  timeline_loop parse w fuel org_name repo_name pr_num first pr_dict updated st
  = (Return locals,
     logged (map (GetTimeline org_name repo_name pr_num)
                 (seq first (S (length pages)))) st).
Proof.
  induction pages as [|page pages IH];
    intros fuel pr_num first d u st locals (Hne & Hpages & Hs & Hb) Hscan Hfuel.
  - destruct fuel as [|fuel]; [lia|]. simpl in *.
    rewrite Nat.add_0_r in Hs, Hb. injection Hscan as <-.
    apply timeline_loop_empty; assumption.
  - destruct fuel as [|fuel]; [simpl in Hfuel; lia|].
    destruct (Hpages 0%nat page eq_refl) as [Hs0 Hb0].
    rewrite Nat.add_0_r in Hs0, Hb0.
    apply Forall_cons in Hne as [Hne0 Hne].
    destruct page as [|ev evs]; [contradiction|].
    change (concat ((ev :: evs) :: pages)) with ((ev :: evs) ++ concat pages) in Hscan.
    rewrite scan_events_app in Hscan.
    destruct (scan_events parse (ev :: evs) d u) as [mid| |] eqn:Hmid;
      simpl in Hscan; try discriminate.
    rewrite (timeline_loop_step _ _ _ _ _ _ _ _ _ Hs0 Hb0 Hmid).
    rewrite (IH fuel pr_num (S first) (fst mid) (snd mid) _ locals).
    + rewrite logged_logged. reflexivity.
    + split; [assumption|]. split; [|split].
      * intros i pg Hi. replace (S first + i)%nat with (first + S i)%nat by lia.
        apply Hpages. exact Hi.
      * replace (S first + length pages)%nat
          with (first + length ((ev :: evs) :: pages))%nat by (simpl; lia).
        exact Hs.
      * replace (S first + length pages)%nat
          with (first + length ((ev :: evs) :: pages))%nat by (simpl; lia).
        exact Hb.
    + exact Hscan.
    + simpl in Hfuel. lia.
Qed.

End Pagination.

(** C8.  In both paginated fetches, whatever page number the loop has
    reached, a successful response with zero items makes the loop return
    with the locals it has, having sent that one request and nothing after
    it. *)
Theorem empty_page_ends_pagination
    (parse : string -> option datetime) (w : World) (fuel : nat)
    (org_name repo_name : string) (pr_num : Z) (page : nat)
    (pr_dict : PrDict) (updated_pr_dict : option PrDict)
    (max_waiting_time_in_hours : Z)
    (reviewer_to_assigned_prs : gmap string (list PullRequest)) (st : State) :
  (success (timeline w org_name repo_name pr_num page) ->
   body (timeline w org_name repo_name pr_num page) = Some [] ->
   timeline_loop parse w (S fuel) org_name repo_name pr_num page
     pr_dict updated_pr_dict st
   = (Return (pr_dict, updated_pr_dict),
      logged [GetTimeline org_name repo_name pr_num page] st)) /\
  (success (pulls w org_name repo_name page) ->
   body (pulls w org_name repo_name page) = Some [] ->
   pulls_loop parse w (S fuel) org_name repo_name max_waiting_time_in_hours
     page reviewer_to_assigned_prs st
   = (Return reviewer_to_assigned_prs,
      logged [GetPulls org_name repo_name page] st)).
Proof.
  split.
  - apply timeline_loop_empty.
  - apply pulls_loop_empty.
Qed.

Lemma empty_page_ends_pagination_witness :
  timeline_loop iso_parse scenario_world 1 "oppia" "oppia" 42 3 pr42 None ready
  = (Return (pr42, None), logged [GetTimeline "oppia" "oppia" 42 3] ready) /\
  pulls_loop iso_parse scenario_world 1 "oppia" "oppia" 24 2 ∅ ready
  = (Return ∅, logged [GetPulls "oppia" "oppia" 2] ready).
Proof.
  pose proof (empty_page_ends_pagination iso_parse scenario_world 0
                "oppia" "oppia" 42 3 pr42 None 24 ∅ ready) as [Ht _].
  pose proof (empty_page_ends_pagination iso_parse scenario_world 0
                "oppia" "oppia" 42 2 pr42 None 24 ∅ ready) as [_ Hp].
  split.
  - apply Ht; [left; simpl; lia | reflexivity].
  - apply Hp; [left; simpl; lia | reflexivity].
Defined.

(** ** Timeline reconciliation *)

Section Reconciliation.

Variable parse : string -> option datetime.

Lemma stamp_assignees_parsed l ev t :
  parse (event_created_at ev) = Some t ->
  stamp_assignees parse l ev = Return (map (stamp_one parse ev) l).
Proof.
  intros Ht. induction l as [|a l IH]; simpl; [reflexivity|].
  unfold stamp_one at 1.
  destruct (String.eqb (assignee ev) (login a)); rewrite ?Ht, IH; reflexivity.
Qed.

Lemma login_stamp_one ev a : login (stamp_one parse ev a) = login a.
Proof. unfold stamp_one. destruct (String.eqb _ _); reflexivity. Qed.

Lemma stamped_cons_other ev rest a :
  is_assigned ev = false -> stamped parse (ev :: rest) a = stamped parse rest a.
Proof.
  unfold stamped, is_assigned. simpl. intros ->. simpl.
  destruct (last_assigned rest (login a)); reflexivity.
Qed.

Lemma stamped_cons_assigned ev rest a :
  is_assigned ev = true ->
  stamped parse (ev :: rest) a = stamped parse rest (stamp_one parse ev a).
Proof.
  unfold stamped, is_assigned. simpl. intros ->. simpl.
  rewrite login_stamp_one.
  destruct (last_assigned rest (login a)); [reflexivity|].
  unfold stamp_one. destruct (String.eqb (assignee ev) (login a)); reflexivity.
Qed.

Lemma last_assigned_exists events who ev :
  last_assigned events who = Some ev -> existsb is_assigned events = true.
Proof.
  induction events as [|e events IH]; simpl; [discriminate|].
  destruct (last_assigned events who).
  - intros H. rewrite (IH H). apply orb_true_r.
  - unfold is_assigned. destruct (String.eqb (event e) "assigned"); simpl;
      [reflexivity | discriminate].
Qed.

Lemma last_assigned_matches events who ev :
  last_assigned events who = Some ev ->
  ev ∈ events /\ event ev = "assigned"%string /\ assignee ev = who.
Proof.
  induction events as [|e events IH]; simpl; [discriminate|].
  destruct (last_assigned events who) as [e'|].
  - intros H. destruct (IH H) as (? & ? & ?).
    split; [by right | by split].
  - destruct (String.eqb (event e) "assigned") eqn:E1; simpl; [|discriminate].
    destruct (String.eqb (assignee e) who) eqn:E2; [|discriminate].
    intros [= ->]. apply String.eqb_eq in E1, E2.
    split; [by left | by split].
Qed.

Lemma stamped_without_assigned events a :
  existsb is_assigned events = false -> stamped parse events a = a.
Proof.
  intros Hex. unfold stamped.
  destruct (last_assigned events (login a)) eqn:Hl; [|reflexivity].
  apply last_assigned_exists in Hl. congruence.
Qed.

(** The fold over a timeline whose "assigned" events all carry a
    parsable date. *)
Lemma scan_events_parsed events : forall pr_dict updated,
  (forall e, e ∈ events -> is_assigned e = true ->
     is_Some (parse (event_created_at e))) ->
  exists d,
    scan_events parse events pr_dict updated
    = Return (d, if existsb is_assigned events then Some d else updated) /\
    number d = number pr_dict /\ user d = user pr_dict /\
    assignees d = map (stamped parse events) (assignees pr_dict).
Proof.
  induction events as [|ev events IH]; intros d u Hparse.
  - exists d. simpl. repeat split.
    unfold stamped. simpl. by rewrite map_id.
  - cbn [scan_events existsb]. fold (is_assigned ev).
    destruct (is_assigned ev) eqn:Hev; cbn [negb orb].
    + destruct (Hparse ev) as [t Ht]; [by left | assumption |].
      unfold get_pull_request_dict_with_timestamp.
      rewrite (stamp_assignees_parsed _ _ _ Ht). cbn [obind].
      set (d1 := mkPrDict (number d) (user d)
                   (map (stamp_one parse ev) (assignees d))).
      destruct (IH d1 (Some d1)) as (d' & Hscan & Hn & Hu & Ha).
      { intros e He. apply Hparse. by right. }
      exists d'. rewrite Hscan. split; [|split; [|split]].
      * destruct (existsb is_assigned events) eqn:Hex; [reflexivity|].
        assert (d' = d1) as ->; [|reflexivity].
        destruct d' as [n' u' a']. cbn in Hn, Hu, Ha. subst n' u'.
        unfold d1. f_equal. rewrite Ha.
        rewrite <- (map_id (map (stamp_one parse ev) (assignees d))) at 2.
        apply map_ext. intros a. by apply stamped_without_assigned.
      * exact Hn.
      * exact Hu.
      * rewrite Ha. unfold d1. cbn [assignees]. rewrite map_map.
        apply map_ext. intros a. symmetry. by apply stamped_cons_assigned.
    + destruct (IH d u) as (d' & Hscan & Hn & Hu & Ha).
      { intros e He. apply Hparse. by right. }
      exists d'. rewrite Hscan. repeat split; try assumption.
      rewrite Ha. apply map_ext. intros a.
      symmetry. by apply stamped_cons_other.
Qed.

End Reconciliation.

(** C1.  With the service initialised, a timeline served as non-empty pages
    followed by an empty one, and parsable dates on its "assigned" events:
    reconciliation returns, having requested each page once, and every
    record of a reviewer for whom [ev] is the last "assigned" event in page
    order carries the creation time of [ev]; when the first such event has
    another time, that time is not the one stored. *)
Theorem last_assignment_wins
    (parse : string -> option datetime) (w : World) (fuel : nat)
    (org_name repo_name : string) (pr_dict : PrDict)
    (pages : list (list TimelineEvent)) (st : State)
    (a : AssigneeDict) (ev : TimelineEvent) (t : datetime) :
  _TOKEN st <> None ->
  serves_timeline w org_name repo_name (number pr_dict) 1 pages ->
  (length pages < fuel)%nat ->
  (forall e, e ∈ concat pages -> is_assigned e = true ->
     is_Some (parse (event_created_at e))) ->
  a ∈ assignees pr_dict ->
  last_assigned (concat pages) (login a) = Some ev ->
  parse (event_created_at ev) = Some t ->
  exists pull_request,
    get_pull_request_object_from_dict parse w fuel org_name repo_name pr_dict st
    = (Return pull_request,
       logged (map (GetTimeline org_name repo_name (number pr_dict))
                   (seq 1 (S (length pages)))) st) /\
    pr_assignees pull_request
    = map (fun x => mkAssignee (login x)
                      (created_at (stamped parse (concat pages) x)))
          (assignees pr_dict) /\
    mkAssignee (login a) (Some t) ∈ pr_assignees pull_request /\
    (forall r, r ∈ pr_assignees pull_request -> username r = login a ->
       assigned_on_timestamp r = Some t) /\
    (forall ev1 t1,
       first_assigned (concat pages) (login a) = Some ev1 ->
       parse (event_created_at ev1) = Some t1 -> t1 <> t ->
       forall r, r ∈ pr_assignees pull_request -> username r = login a ->
         assigned_on_timestamp r <> Some t1).
Proof.
  intros Htok Hserve Hfuel Hparse Ha Hlast Ht.
  destruct (scan_events_parsed parse (concat pages) pr_dict None Hparse)
    as (d & Hscan & Hn & Hu & Hd).
  rewrite (last_assigned_exists _ _ _ Hlast) in Hscan.
  assert (Hstamp : forall x, login x = login a ->
            created_at (stamped parse (concat pages) x) = Some t).
  { intros x Hx. unfold stamped. rewrite Hx, Hlast. simpl. exact Ht. }
  assert (Hall : forall r,
            r ∈ map (fun x => mkAssignee (login x)
                       (created_at (stamped parse (concat pages) x)))
                    (assignees pr_dict) ->
            username r = login a -> assigned_on_timestamp r = Some t).
  { intros r Hr Hname. apply list_elem_of_fmap in Hr as (x & -> & Hx).
    simpl in *. by apply Hstamp. }
  exists (from_github_response d). split; [|split; [|split; [|split]]].
  - unfold get_pull_request_object_from_dict, check_token.
    destruct (_TOKEN st) as [tok|]; [|contradiction].
    unfold bind.
    rewrite (timeline_loop_serves parse w org_name repo_name pages fuel
               (number pr_dict) 1 pr_dict None st _ Hserve Hscan Hfuel).
    reflexivity.
  - unfold from_github_response. simpl. rewrite Hd, map_map.
    apply map_ext. intros x. unfold stamped.
    destruct (last_assigned (concat pages) (login x)); reflexivity.
  - unfold from_github_response. simpl. rewrite Hd, map_map.
    apply list_elem_of_fmap. exists a. split; [|exact Ha].
    unfold stamped. rewrite Hlast. simpl. by rewrite Ht.
  - intros r Hr Hname. apply Hall; [|exact Hname].
    unfold from_github_response in Hr. simpl in Hr. rewrite Hd, map_map in Hr.
    apply list_elem_of_fmap in Hr as (x & -> & Hx).
    apply list_elem_of_fmap. exists x. split; [|exact Hx].
    unfold stamped. destruct (last_assigned (concat pages) (login x)); reflexivity.
  - intros ev1 t1 _ _ Hne r Hr Hname Habs.
    assert (assigned_on_timestamp r = Some t) as Heq.
    { apply Hall; [|exact Hname].
      unfold from_github_response in Hr. simpl in Hr. rewrite Hd, map_map in Hr.
      apply list_elem_of_fmap in Hr as (x & -> & Hx).
      apply list_elem_of_fmap. exists x. split; [|exact Hx].
      unfold stamped. destruct (last_assigned (concat pages) (login x)); reflexivity. }
    congruence.
Qed.

Lemma last_assignment_wins_witness :
  exists pull_request,
    get_pull_request_object_from_dict iso_parse scenario_world 3
      "oppia" "oppia" pr42 ready
    = (Return pull_request,
       logged (map (GetTimeline "oppia" "oppia" 42) [1; 2; 3]%nat) ready) /\
    mkAssignee "bob" (Some (mkDatetime 2024 3 1 12 0 0 0))
      ∈ pr_assignees pull_request.
Proof.
  destruct (last_assignment_wins iso_parse scenario_world 3 "oppia" "oppia" pr42
              [pr42_timeline 1; pr42_timeline 2] ready
              (mkAssigneeDict "bob" None)
              (mkEvent "assigned" "bob" "2024-03-01T12:00:00Z")
              (mkDatetime 2024 3 1 12 0 0 0))
    as (pull_request & Hrun & _ & Hin & _).
  - discriminate.
  - split; [|split; [|split]].
    + repeat constructor; discriminate.
    + intros i page Hi.
      destruct i as [|[|i]]; simpl in Hi; inversion Hi; subst;
        (split; [left; simpl; lia | reflexivity]).
    + left; simpl; lia.
    + reflexivity.
  - simpl. lia.
  - intros e He _. simpl in He.
    repeat (apply elem_of_cons in He as [->|He]; [eexists; reflexivity|]).
    by apply elem_of_nil in He.
  - left.
  - reflexivity.
  - reflexivity.
  - exists pull_request. split; [exact Hrun | exact Hin].
Defined.

(** A timeline without any "assigned" event leaves [updated_pr_dict]
    unbound, and the [return] that reads it raises. *)
Lemma unbound_without_assigned_event
    (parse : string -> option datetime) (w : World) (fuel : nat)
    (org_name repo_name : string) (pr_dict : PrDict)
    (pages : list (list TimelineEvent)) (st : State) :
  _TOKEN st <> None ->
  serves_timeline w org_name repo_name (number pr_dict) 1 pages ->
  (length pages < fuel)%nat ->
  existsb is_assigned (concat pages) = false ->
  get_pull_request_object_from_dict parse w fuel org_name repo_name pr_dict st
  = (Raise UnboundLocalError,
     logged (map (GetTimeline org_name repo_name (number pr_dict))
                 (seq 1 (S (length pages)))) st).
Proof.
  intros Htok Hserve Hfuel Hnone.
  destruct (scan_events_parsed parse (concat pages) pr_dict None)
    as (d & Hscan & _).
  { intros e He Hassigned. exfalso.
    assert (existsb is_assigned (concat pages) = true) as Hex.
    { apply existsb_exists. exists e. split; [|exact Hassigned].
      by apply list_elem_of_In. }
    congruence. }
  rewrite Hnone in Hscan.
  unfold get_pull_request_object_from_dict, check_token.
  destruct (_TOKEN st) as [tok|]; [|contradiction].
  unfold bind.
  rewrite (timeline_loop_serves parse w org_name repo_name pages fuel
             (number pr_dict) 1 pr_dict None st _ Hserve Hscan Hfuel).
  reflexivity.
Qed.

(** C2.  The code at a pull request that has a reviewer and an empty
    timeline: the reconciliation raises [UnboundLocalError] after the first
    timeline request, and the overdue scan that called it ends with that
    error instead of a mapping. *)
Theorem empty_timeline_raises (fuel : nat) :
  get_pull_request_object_from_dict iso_parse unassigned_world (S fuel)
    "oppia" "oppia" pr7 ready
  = (Raise UnboundLocalError, logged [GetTimeline "oppia" "oppia" 7 1] ready) /\
  get_prs_assigned_to_reviewers iso_parse unassigned_world (S (S fuel))
    "oppia" "oppia" 24 ready
  = (Raise UnboundLocalError,
     logged [GetPulls "oppia" "oppia" 1; GetTimeline "oppia" "oppia" 7 1] ready).
Proof.
  assert (H : get_pull_request_object_from_dict iso_parse unassigned_world (S fuel)
                "oppia" "oppia" pr7 (logged [GetPulls "oppia" "oppia" 1] ready)
              = (Raise UnboundLocalError,
                 logged [GetPulls "oppia" "oppia" 1; GetTimeline "oppia" "oppia" 7 1]
                   ready)).
  { rewrite (unbound_without_assigned_event iso_parse unassigned_world (S fuel)
               "oppia" "oppia" pr7 [] _).
    - reflexivity.
    - discriminate.
    - split; [constructor|]. split; [|split].
      + intros i page Hi. destruct i; discriminate.
      + left; simpl; lia.
      + reflexivity.
    - simpl; lia.
    - reflexivity. }
  split.
  - rewrite (unbound_without_assigned_event iso_parse unassigned_world (S fuel)
               "oppia" "oppia" pr7 [] ready).
    + reflexivity.
    + discriminate.
    + split; [constructor|]. split; [|split].
      * intros i page Hi. destruct i; discriminate.
      * left; simpl; lia.
      * reflexivity.
    + simpl; lia.
    + reflexivity.
  - unfold get_prs_assigned_to_reviewers, check_token. cbn [_TOKEN ready].
    cbn [pulls_loop]. unfold bind at 1. unfold send.
    unfold bind at 1. rewrite raise_for_status_success by (left; simpl; lia).
    unfold bind at 1. unfold json at 1. cbn [body unassigned_world pulls ok ret].
    unfold bind at 1. cbn [build_pull_requests]. unfold bind at 1.
    rewrite H. reflexivity.
Qed.

(** C6.  The code at a discussion locator whose two GraphQL lookups are
    both answered with a server error: no error is raised, the locator
    returns the identifier and number read from the bodies, and posting
    goes on to send its mutation.  The comment listing, which does call
    [raise_for_status], stops at the same kind of answer. *)
Theorem locator_ignores_failed_status :
  _get_discussion_data failing_graphql_world "oppia" "oppia" "Reviews"
    "Pending reviews" ready
  = (Return ("D_1"%string, 5),
     logged [QueryCategories "oppia" "oppia";
             QueryDiscussions "oppia" "oppia" "C_1"] ready) /\
  add_discussion_comments failing_graphql_world "oppia" "oppia" "Reviews"
    "Pending reviews" "hello" ready
  = (Return tt,
     logged [QueryCategories "oppia" "oppia";
             QueryDiscussions "oppia" "oppia" "C_1";
             MutationPostComment "D_1" "hello"] ready) /\
  _get_old_comment_ids failing_graphql_world "oppia" "oppia" 5 ready
  = (Raise HTTPError, logged [QueryComments "oppia" "oppia" 5] ready).
Proof. repeat split; vm_compute; reflexivity. Qed.

(** ** Overdue evaluation *)

Lemma bind_inv {A B} (m : M A) (k : A -> M B) st b st' :
  bind m k st = (Return b, st') ->
  exists a st1, m st = (Return a, st1) /\ k a st1 = (Return b, st').
Proof.
  unfold bind. destruct (m st) as [[a| |] st1]; intros H; try discriminate.
  exists a, st1. split; [reflexivity | exact H].
Qed.

Section Scan.

Variable parse : string -> option datetime.
Variable w : World.


Section Invariant.

Variable P : gmap string (list PullRequest) -> Prop.
Hypothesis P_append : forall reviewer pull_request d,
  reviewer <> author_username pull_request ->
  P d -> P (append_pr reviewer pull_request d).

Lemma scan_reviewers_preserves h p reviewers : forall acc st d st',
  P acc ->
  scan_reviewers w h p reviewers acc st = (Return d, st') -> P d.
Proof.
  induction reviewers as [|r rest IH]; intros acc st d st' Hacc Hrun.
  - cbn in Hrun. injection Hrun as <- _. exact Hacc.
  - cbn [scan_reviewers] in Hrun.
    apply bind_inv in Hrun as (t & st1 & _ & Hrun).
    apply bind_inv in Hrun as (pending & st2 & _ & Hrun).
    destruct (String.eqb (username r) (author_username p)) eqn:Heq;
      cbn [negb] in Hrun.
    + eapply IH; eassumption.
    + apply bind_inv in Hrun as (threshold & st3 & _ & Hrun).
      destruct (threshold <=? pending).
      * eapply IH; [|eassumption]. apply P_append; [|exact Hacc].
        by apply String.eqb_neq.
      * eapply IH; eassumption.
Qed.

Lemma scan_pull_requests_preserves h prs : forall acc st d st',
  P acc ->
  scan_pull_requests w h prs acc st = (Return d, st') -> P d.
Proof.
  induction prs as [|p prs IH]; intros acc st d st' Hacc Hrun.
  - cbn in Hrun. injection Hrun as <- _. exact Hacc.
  - cbn [scan_pull_requests] in Hrun.
    destruct (negb (is_reviewer_assigned p)).
    + eapply IH; eassumption.
    + apply bind_inv in Hrun as (d1 & st1 & Hrev & Hrun).
      eapply IH; [|eassumption].
      eapply scan_reviewers_preserves; eassumption.
Qed.

Lemma pulls_loop_preserves org_name repo_name h fuel :
  forall page acc st d st',
  P acc ->
  pulls_loop parse w fuel org_name repo_name h page acc st = (Return d, st') ->
  P d.
Proof.
  induction fuel as [|fuel IH]; intros page acc st d st' Hacc Hrun.
  - discriminate.
  - cbn [pulls_loop] in Hrun.
    apply bind_inv in Hrun as (response & st1 & _ & Hrun).
    apply bind_inv in Hrun as (? & st2 & _ & Hrun).
    apply bind_inv in Hrun as (pr_subset & st3 & _ & Hrun).
    destruct pr_subset as [|pr pr_subset].
    + injection Hrun as <- _. exact Hacc.
    + apply bind_inv in Hrun as (prs & st4 & _ & Hrun).
      apply bind_inv in Hrun as (d1 & st5 & Hscan & Hrun).
      eapply IH; [|eassumption].
      eapply scan_pull_requests_preserves; eassumption.
Qed.

Lemma get_prs_assigned_to_reviewers_preserves org_name repo_name h fuel st d st' :
  P ∅ ->
  get_prs_assigned_to_reviewers parse w fuel org_name repo_name h st
  = (Return d, st') ->
  P d.
Proof.
  intros Hempty. unfold get_prs_assigned_to_reviewers, check_token.
  destruct (_TOKEN st); [|discriminate].
  by apply pulls_loop_preserves.
Qed.

End Invariant.

End Scan.

Lemma append_pr_lookup reviewer pull_request (d : gmap string (list PullRequest)) r :
  append_pr reviewer pull_request d !! r
  = if decide (reviewer = r)
    then Some (default [] (d !! reviewer) ++ [pull_request])
    else d !! r.
Proof. unfold append_pr. by rewrite lookup_insert. Qed.

Lemma no_self_review_append reviewer pull_request d :
  reviewer <> author_username pull_request ->
  no_self_review d -> no_self_review (append_pr reviewer pull_request d).
Proof.
  intros Hne Hd r prs p Hlook Hin. rewrite append_pr_lookup in Hlook.
  destruct (decide (reviewer = r)) as [->|Hr].
  - injection Hlook as <-. apply elem_of_app in Hin as [Hin|Hin].
    + destruct (d !! r) as [old|] eqn:Hold; simpl in Hin.
      * by eapply Hd.
      * by apply elem_of_nil in Hin.
    + apply list_elem_of_singleton in Hin as ->. congruence.
  - by eapply Hd.
Qed.

Lemma no_empty_entry_append reviewer pull_request d :
  no_empty_entry d -> no_empty_entry (append_pr reviewer pull_request d).
Proof.
  intros Hd r prs Hlook. rewrite append_pr_lookup in Hlook.
  destruct (decide (reviewer = r)) as [->|Hr].
  - injection Hlook as <-. intros Habs. by apply app_eq_nil in Habs as [_ ?].
  - by eapply Hd.
Qed.

Lemma scenario_run :
  get_prs_assigned_to_reviewers iso_parse scenario_world 4 "oppia" "oppia" 1 ready
  = (Return (append_pr "bob" pr42_reconciled ∅),
     mkState (Some "ghp_token"%string)
       [GetPulls "oppia" "oppia" 1; GetTimeline "oppia" "oppia" 42 1;
        GetTimeline "oppia" "oppia" 42 2; GetTimeline "oppia" "oppia" 42 3;
        GetPulls "oppia" "oppia" 2] 2).
Proof. vm_compute. reflexivity. Qed.

(** C3.  In a mapping returned by [get_prs_assigned_to_reviewers], no pull
    request is listed under the username of its own author, whatever the
    clock and the timestamps are. *)
Theorem author_is_never_overdue
    (parse : string -> option datetime) (w : World) (fuel : nat)
    (org_name repo_name : string) (max_waiting_time_in_hours : Z)
    (st st' : State) (d : gmap string (list PullRequest))
    (reviewer : string) (prs : list PullRequest) (pull_request : PullRequest) :
  get_prs_assigned_to_reviewers parse w fuel org_name repo_name
    max_waiting_time_in_hours st = (Return d, st') ->
  d !! reviewer = Some prs ->
  pull_request ∈ prs ->
  author_username pull_request <> reviewer.
Proof.
  intros Hrun. revert reviewer prs pull_request.
  change (no_self_review d).
  eapply (get_prs_assigned_to_reviewers_preserves parse w no_self_review);
    [| |exact Hrun].
  - intros. by apply no_self_review_append.
  - intros r prs p Hlook. by rewrite lookup_empty in Hlook.
Qed.

Lemma author_is_never_overdue_witness :
  append_pr "bob" pr42_reconciled ∅ !! "bob"%string = Some [pr42_reconciled] /\
  append_pr "bob" pr42_reconciled ∅ !! "alice"%string = None /\
  author_username pr42_reconciled <> "bob"%string.
Proof.
  split; [vm_compute; reflexivity|]. split; [vm_compute; reflexivity|].
  apply (author_is_never_overdue iso_parse scenario_world 4 "oppia" "oppia" 1
           ready _ _ "bob" [pr42_reconciled] pr42_reconciled scenario_run).
  - vm_compute. reflexivity.
  - left.
Defined.

(** C10.  In a mapping returned by [get_prs_assigned_to_reviewers], every
    key holds a non-empty list. *)
Theorem every_listed_reviewer_has_a_pull_request
    (parse : string -> option datetime) (w : World) (fuel : nat)
    (org_name repo_name : string) (max_waiting_time_in_hours : Z)
    (st st' : State) (d : gmap string (list PullRequest))
    (reviewer : string) (prs : list PullRequest) :
  get_prs_assigned_to_reviewers parse w fuel org_name repo_name
    max_waiting_time_in_hours st = (Return d, st') ->
  d !! reviewer = Some prs ->
  prs <> [].
Proof.
  intros Hrun. revert reviewer prs.
  change (no_empty_entry d).
  eapply (get_prs_assigned_to_reviewers_preserves parse w no_empty_entry);
    [| |exact Hrun].
  - intros. by apply no_empty_entry_append.
  - intros r prs Hlook. by rewrite lookup_empty in Hlook.
Qed.

Lemma every_listed_reviewer_has_a_pull_request_witness :
  [pr42_reconciled] <> [].
Proof.
  apply (every_listed_reviewer_has_a_pull_request iso_parse scenario_world 4
           "oppia" "oppia" 1 ready _ _ "bob" [pr42_reconciled] scenario_run).
  vm_compute. reflexivity.
Defined.



(** ** Stale comments *)

Lemma collect_old_comment_ids_prefix discussion_comments cutoff :
  forall comment_ids,
  exists old rest,
    discussion_comments = old ++ rest /\
    collect_old_comment_ids discussion_comments cutoff comment_ids
    = comment_ids ++ map comment_id old /\
    Forall (fun c => str_lt (createdAt c) cutoff = true) old /\
    match rest with
    | [] => True
    | c :: _ => str_lt (createdAt c) cutoff = false
    end.
Proof.
  induction discussion_comments as [|c cs IH]; intros acc.
  - exists [], []. simpl. rewrite app_nil_r. repeat split. constructor.
  - cbn [collect_old_comment_ids].
    destruct (str_lt (createdAt c) cutoff) eqn:Hc.
    + destruct (IH (acc ++ [comment_id c])) as (old & rest & -> & Hrun & Hold & Hrest).
      exists (c :: old), rest. split; [reflexivity|]. split; [|split].
      * rewrite Hrun. by rewrite <- app_assoc.
      * by constructor.
      * exact Hrest.
    + exists [], (c :: cs). simpl. rewrite app_nil_r. repeat split.
      * constructor.
      * exact Hc.
Qed.

Lemma _get_old_comment_ids_run
    (w : World) (org_name repo_name : string) (discussion_number : Z)
    (st : State) (discussion_comments : list Comment) (past : datetime) :
  success (comments w org_name repo_name discussion_number) ->
  body (comments w org_name repo_name discussion_number) = Some discussion_comments ->
  datetime_minus (clock w (ticks st)) (60 * US_PER_DAY) = Return past ->
  _get_old_comment_ids w org_name repo_name discussion_number st
  = (Return (collect_old_comment_ids discussion_comments (strftime past) []),
     ticked (logged [QueryComments org_name repo_name discussion_number] st)).
Proof.
  intros Hs Hb Hpast.
  unfold _get_old_comment_ids. unfold bind at 1. unfold send.
  unfold bind at 1. rewrite raise_for_status_success by assumption.
  unfold bind at 1. unfold json at 1. rewrite Hb. unfold ret at 1.
  unfold bind at 1. unfold _get_past_time. unfold bind at 1. unfold now at 1.
  unfold bind at 1. unfold lift at 1.
  change (timedelta_days DELETE_COMMENTS_BEFORE_IN_DAYS)
    with (Return (A:=Z) (60 * US_PER_DAY)).
  unfold bind at 1. unfold lift at 1. cbn [ticks logged].
  rewrite Hpast. reflexivity.
Qed.

(** The selection on the strings themselves: the ids returned are those of
    a prefix of the fetched comments, every [createdAt] of the prefix is
    below the rendered cutoff in the order of strings, and that of the
    comment right after the prefix, if there is one, is not. *)
Lemma stale_comments_prefix_by_string
    (w : World) (org_name repo_name : string) (discussion_number : Z)
    (st : State) (discussion_comments : list Comment) (past : datetime) :
  success (comments w org_name repo_name discussion_number) ->
  body (comments w org_name repo_name discussion_number) = Some discussion_comments ->
  datetime_minus (clock w (ticks st)) (60 * US_PER_DAY) = Return past ->
  exists old rest,
    discussion_comments = old ++ rest /\
    _get_old_comment_ids w org_name repo_name discussion_number st
    = (Return (map comment_id old),
       ticked (logged [QueryComments org_name repo_name discussion_number] st)) /\
    Forall (fun c => str_lt (createdAt c) (strftime past) = true) old /\
    match rest with
    | [] => True
    | c :: _ => str_lt (createdAt c) (strftime past) = false
    end.
Proof.
  intros Hs Hb Hpast.
  destruct (collect_old_comment_ids_prefix discussion_comments (strftime past) [])
    as (old & rest & Hsplit & Hrun & Hold & Hrest).
  exists old, rest. split; [exact Hsplit|]. split; [|split; assumption].
  rewrite (_get_old_comment_ids_run w _ _ _ st _ past Hs Hb Hpast), Hrun.
  reflexivity.
Qed.

Example stale_comments_scenario :
  _get_old_comment_ids comments_world "oppia" "oppia" 5 ready
  = (Return ["c1"; "c2"; "c3"; "c4"; "c5"]%string,
     ticked (logged [QueryComments "oppia" "oppia" 5] ready)).
Proof. vm_compute. reflexivity. Qed.

(** ** Rendered timestamps and their order *)

Lemma lex_assoc a b c : lex (lex a b) c = lex a (lex b c).
Proof. by destruct a. Qed.

(** Comparing two numbers is comparing quotients, then remainders. *)
Lemma compare_div_mod k a b :
  0 < k -> (a ?= b) = lex (a / k ?= b / k) (a mod k ?= b mod k).
Proof.
  intros Hk.
  pose proof (Z.div_mod a k ltac:(lia)) as Ha.
  pose proof (Z.div_mod b k ltac:(lia)) as Hb.
  pose proof (Z.mod_pos_bound a k Hk) as Hra.
  pose proof (Z.mod_pos_bound b k Hk) as Hrb.
  destruct (Z.compare_spec (a / k) (b / k)) as [Hq|Hq|Hq]; cbn [lex].
  - destruct (Z.compare_spec (a mod k) (b mod k)) as [Hr|Hr|Hr].
    + apply Z.compare_eq_iff. congruence.
    + apply Z.compare_lt_iff. rewrite Ha, Hb, Hq. lia.
    + apply Z.compare_gt_iff. rewrite Ha, Hb, Hq. lia.
  - apply Z.compare_lt_iff. rewrite Ha, Hb. nia.
  - apply Z.compare_gt_iff. rewrite Ha, Hb. nia.
Qed.

(** Mixed radix: a digit below the radix never outweighs the part above. *)
Lemma compare_radix k a b x y :
  0 <= x < k -> 0 <= y < k ->
  (a * k + x ?= b * k + y) = lex (a ?= b) (x ?= y).
Proof.
  intros Hx Hy.
  destruct (Z.compare_spec a b) as [Hq|Hq|Hq]; cbn [lex].
  - subst. destruct (Z.compare_spec x y) as [Hr|Hr|Hr].
    + apply Z.compare_eq_iff. congruence.
    + apply Z.compare_lt_iff. lia.
    + apply Z.compare_gt_iff. lia.
  - apply Z.compare_lt_iff. nia.
  - apply Z.compare_gt_iff. nia.
Qed.

Lemma compare_digit a b :
  0 <= a <= 9 -> 0 <= b <= 9 ->
  Ascii.compare (digit a) (digit b) = (a ?= b).
Proof.
  intros Ha Hb. unfold Ascii.compare, digit.
  rewrite !N_ascii_embedding by lia.
  rewrite Z2N.inj_compare by lia.
  apply Z.add_compare_mono_l.
Qed.

Lemma compare_pad2 a b r1 r2 :
  0 <= a < 100 -> 0 <= b < 100 ->
  String.compare (pad2 a r1) (pad2 b r2) = lex (a ?= b) (String.compare r1 r2).
Proof.
  intros Ha Hb. unfold pad2. cbn [String.compare].
  rewrite !compare_digit
    by (split; try (apply Z.div_pos; lia); try (apply Z.mod_pos_bound; lia);
        try (pose proof (Z.mod_pos_bound a 10); pose proof (Z.mod_pos_bound b 10);
             pose proof (Z.div_lt_upper_bound a 10 10);
             pose proof (Z.div_lt_upper_bound b 10 10); lia)).
  rewrite (compare_div_mod 10 a b) by lia.
  destruct (a / 10 ?= b / 10); reflexivity.
Qed.

Lemma compare_pad4 a b r1 r2 :
  0 <= a < 10000 -> 0 <= b < 10000 ->
  String.compare (pad4 a r1) (pad4 b r2) = lex (a ?= b) (String.compare r1 r2).
Proof.
  intros Ha Hb. unfold pad4. cbn [String.compare].
  assert (Hd : forall n, 0 <= n < 10000 -> 0 <= n / 1000 <= 9).
  { intros n Hn. split; [apply Z.div_pos; lia|].
    apply Z.lt_succ_r. apply Z.div_lt_upper_bound; lia. }
  assert (Hm : forall n, 0 <= n mod 10 <= 9).
  { intros n. pose proof (Z.mod_pos_bound n 10). lia. }
  rewrite !compare_digit by auto.
  assert (H100 : forall n, n / 10 / 10 = n / 100).
  { intros n. by rewrite Z.div_div by lia. }
  assert (H1000 : forall n, n / 100 / 10 = n / 1000).
  { intros n. by rewrite Z.div_div by lia. }
  rewrite (compare_div_mod 10 a b) by lia.
  rewrite (compare_div_mod 10 (a / 10) (b / 10)) by lia.
  rewrite !H100.
  rewrite (compare_div_mod 10 (a / 100) (b / 100)) by lia.
  rewrite !H1000.
  destruct (a / 1000 ?= b / 1000); cbn [lex]; try reflexivity.
  destruct (a / 100 mod 10 ?= b / 100 mod 10); cbn [lex]; try reflexivity.
  destruct (a / 10 mod 10 ?= b / 10 mod 10); reflexivity.
Qed.

Lemma compare_separator c r1 r2 :
  String.compare (String c r1) (String c r2) = String.compare r1 r2.
Proof.
  cbn [String.compare]. unfold Ascii.compare. by rewrite N.compare_refl.
Qed.

(** The rendered strings are ordered as the field tuples are. *)
Lemma render_year_four_digits y rest :
  1000 <= y -> render_year y rest = pad4 y rest.
Proof.
  intros Hy. unfold render_year.
  replace (y <? 10) with false by (symmetry; apply Z.ltb_ge; lia).
  replace (y <? 100) with false by (symmetry; apply Z.ltb_ge; lia).
  replace (y <? 1000) with false by (symmetry; apply Z.ltb_ge; lia).
  reflexivity.
Qed.

Lemma compare_strftime a b :
  valid_datetime a -> 1000 <= year a ->
  valid_datetime b -> 1000 <= year b ->
  String.compare (strftime a) (strftime b) = compare_fields a b.
Proof.
  intros (Hy1 & Hm1 & Hd1 & Hh1 & Hn1 & Hs1 & _) Hfour1
         (Hy2 & Hm2 & Hd2 & Hh2 & Hn2 & Hs2 & _) Hfour2.
  assert (Hdim : forall y m, days_in_month y m <= 31).
  { intros y m. unfold days_in_month, DAYS_IN_MONTH.
    destruct ((m =? 2) && is_leap y); [lia|].
    destruct m as [|p|p]; try lia.
    repeat (match goal with
            | |- context [match ?q with _ => _ end] => destruct q
            end; try lia). }
  pose proof (Hdim (year a) (month a)). pose proof (Hdim (year b) (month b)).
  unfold strftime, compare_fields.
  rewrite !render_year_four_digits by assumption.
  rewrite compare_pad4 by lia. rewrite compare_separator.
  rewrite compare_pad2 by lia. rewrite compare_separator.
  rewrite compare_pad2 by lia. rewrite compare_separator.
  rewrite compare_pad2 by lia. rewrite compare_separator.
  rewrite compare_pad2 by lia. rewrite compare_separator.
  rewrite compare_pad2 by lia.
  destruct (second a ?= second b); reflexivity.
Qed.

(** ** The calendar *)

Lemma days_before_year_succ y :
  days_before_year (y + 1)
  = days_before_year y + 365 + (if is_leap y then 1 else 0).
Proof.
  unfold days_before_year, is_leap.
  replace (y + 1 - 1) with y by lia.
  destruct (Z.eqb_spec (y mod 4) 0) as [H4|H4];
    destruct (Z.eqb_spec (y mod 100) 0) as [H100|H100];
    destruct (Z.eqb_spec (y mod 400) 0) as [H400|H400];
    cbn [negb andb orb]; cbv zeta;
    Z.div_mod_to_equations; lia.
Qed.

Lemma days_before_year_grows y (n : nat) :
  days_before_year y + 365 * Z.of_nat n <= days_before_year (y + Z.of_nat n).
Proof.
  induction n as [|n IH].
  - change (Z.of_nat 0) with 0. rewrite Z.mul_0_r, !Z.add_0_r. lia.
  - replace (y + Z.of_nat (S n)) with (y + Z.of_nat n + 1) by lia.
    rewrite days_before_year_succ.
    destruct (is_leap (y + Z.of_nat n)); lia.
Qed.

Lemma days_before_year_mono y1 y2 :
  y1 <= y2 -> days_before_year y1 <= days_before_year y2.
Proof.
  intros Hle. pose proof (days_before_year_grows y1 (Z.to_nat (y2 - y1))) as H.
  rewrite Z2Nat.id in H by lia.
  replace (y1 + (y2 - y1)) with y2 in H by lia. lia.
Qed.

Ltac each_month m :=
  let H := fresh in
  assert (H : m = 1 \/ m = 2 \/ m = 3 \/ m = 4 \/ m = 5 \/ m = 6 \/ m = 7 \/
              m = 8 \/ m = 9 \/ m = 10 \/ m = 11 \/ m = 12) by lia;
  repeat (destruct H as [H|H]; [subst m|]); [..|subst m].

Lemma day_of_year_bounds y m d :
  1 <= m <= 12 -> 1 <= d <= days_in_month y m ->
  1 <= days_before_month y m + d <= 365 + (if is_leap y then 1 else 0).
Proof.
  intros Hm Hd. unfold days_before_month, days_in_month in *.
  each_month m; destruct (is_leap y); cbn in *; lia.
Qed.

Lemma day_of_year_by_month y m1 d1 m2 d2 :
  1 <= m1 -> m1 < m2 -> m2 <= 12 ->
  d1 <= days_in_month y m1 -> 1 <= d2 ->
  days_before_month y m1 + d1 < days_before_month y m2 + d2.
Proof.
  intros H1 H12 H2 Hd1 Hd2. unfold days_before_month, days_in_month in *.
  each_month m1; each_month m2; try lia; destruct (is_leap y); cbn in *; lia.
Qed.

Lemma ymd2ord_by_year y1 m1 d1 y2 m2 d2 :
  1 <= m1 <= 12 -> 1 <= d1 <= days_in_month y1 m1 ->
  1 <= m2 <= 12 -> 1 <= d2 <= days_in_month y2 m2 ->
  y1 < y2 -> ymd2ord y1 m1 d1 < ymd2ord y2 m2 d2.
Proof.
  intros Hm1 Hd1 Hm2 Hd2 Hlt. unfold ymd2ord.
  pose proof (day_of_year_bounds y1 m1 d1 Hm1 Hd1).
  pose proof (day_of_year_bounds y2 m2 d2 Hm2 Hd2).
  pose proof (days_before_year_succ y1).
  pose proof (days_before_year_mono (y1 + 1) y2 ltac:(lia)).
  lia.
Qed.

(** Ordinals of valid dates are ordered as (year, month, day). *)
Lemma compare_ymd2ord y1 m1 d1 y2 m2 d2 :
  1 <= m1 <= 12 -> 1 <= d1 <= days_in_month y1 m1 ->
  1 <= m2 <= 12 -> 1 <= d2 <= days_in_month y2 m2 ->
  (ymd2ord y1 m1 d1 ?= ymd2ord y2 m2 d2)
  = lex (y1 ?= y2) (lex (m1 ?= m2) (d1 ?= d2)).
Proof.
  intros Hm1 Hd1 Hm2 Hd2.
  destruct (Z.compare_spec y1 y2) as [Hy|Hy|Hy]; cbn [lex].
  - subst y2. destruct (Z.compare_spec m1 m2) as [Hm|Hm|Hm]; cbn [lex].
    + subst m2. unfold ymd2ord.
      destruct (Z.compare_spec d1 d2) as [Hd|Hd|Hd].
      * apply Z.compare_eq_iff. lia.
      * apply Z.compare_lt_iff. lia.
      * apply Z.compare_gt_iff. lia.
    + apply Z.compare_lt_iff. unfold ymd2ord.
      pose proof (day_of_year_by_month y1 m1 d1 m2 d2). lia.
    + apply Z.compare_gt_iff. unfold ymd2ord.
      pose proof (day_of_year_by_month y1 m2 d2 m1 d1). lia.
  - apply Z.compare_lt_iff. by apply ymd2ord_by_year.
  - apply Z.compare_gt_iff. by apply ymd2ord_by_year.
Qed.

(** Instants in whole seconds are ordered as the field tuples are. *)
Lemma compare_to_seconds a b :
  valid_datetime a -> valid_datetime b ->
  (to_seconds a ?= to_seconds b) = compare_fields a b.
Proof.
  intros (Hy1 & Hm1 & Hd1 & Hh1 & Hn1 & Hs1 & _) (Hy2 & Hm2 & Hd2 & Hh2 & Hn2 & Hs2 & _).
  unfold to_seconds, compare_fields.
  rewrite (compare_radix 60) by lia.
  rewrite (compare_radix 60) by lia.
  rewrite (compare_radix 24) by lia.
  rewrite compare_ymd2ord by assumption.
  rewrite !lex_assoc. reflexivity.
Qed.

Lemma str_lt_strftime a b :
  valid_datetime a -> 1000 <= year a ->
  valid_datetime b -> 1000 <= year b ->
  str_lt (strftime a) (strftime b) = (to_seconds a <? to_seconds b).
Proof.
  intros Ha Hfa Hb Hfb. unfold str_lt, String.ltb, Z.ltb.
  rewrite compare_strftime, compare_to_seconds by assumption. reflexivity.
Qed.

Lemma collect_old_comment_ids_reference discussion_comments cutoff :
  valid_datetime cutoff -> 1000 <= year cutoff ->
  Forall (fun c => valid_datetime (snd c) /\ 1000 <= year (snd c))
         discussion_comments ->
  forall comment_ids,
    collect_old_comment_ids (map render_comment discussion_comments)
      (strftime cutoff) comment_ids
    = comment_ids ++ reference_old_comment_ids discussion_comments cutoff.
Proof.
  intros Hcut Hfour Hall.
  induction Hall as [|[i created] cs [Hc Hfc] Hcs IH]; intros acc.
  - simpl. by rewrite app_nil_r.
  - cbn [map collect_old_comment_ids reference_old_comment_ids render_comment
         createdAt comment_id fst snd].
    cbn [snd] in Hc, Hfc. rewrite (str_lt_strftime _ _ Hc Hfc Hcut Hfour).
    destruct (to_seconds created <? to_seconds cutoff).
    + rewrite IH. by rewrite <- app_assoc.
    + by rewrite app_nil_r.
Qed.

(** ** Back from ordinals *)

Lemma month_and_day_checked :
  forallb (fun i => month_and_day_ok true (month_and_day (Z.of_nat i) true)
                    && month_and_day_ok false (month_and_day (Z.of_nat i) false))
          (seq 0 365) = true.
Proof. vm_compute. reflexivity. Qed.

Lemma month_and_day_valid n leapyear :
  0 <= n < 365 ->
  1 <= fst (month_and_day n leapyear) <= 12 /\
  1 <= snd (month_and_day n leapyear)
    <= (if (fst (month_and_day n leapyear) =? 2) && leapyear then 29
        else DAYS_IN_MONTH (fst (month_and_day n leapyear))).
Proof.
  intros Hn.
  pose proof (proj1 (forallb_forall _ _) month_and_day_checked (Z.to_nat n)) as H.
  assert (Hin : In (Z.to_nat n) (seq 0 365)) by (apply in_seq; lia).
  specialize (H Hin). cbv beta in H. rewrite Z2Nat.id in H by lia.
  apply andb_true_iff in H as [Ht Hf].
  assert (Hok : month_and_day_ok leapyear (month_and_day n leapyear) = true)
    by (destruct leapyear; assumption).
  unfold month_and_day_ok in Hok.
  repeat (apply andb_true_iff in Hok as [Hok ?]).
  lia.
Qed.

Lemma ord2ymd_valid n :
  1 <= n <= MAXORDINAL ->
  1 <= fst (fst (ord2ymd n)) <= 9999 /\
  1 <= snd (fst (ord2ymd n)) <= 12 /\
  1 <= snd (ord2ymd n)
    <= days_in_month (fst (fst (ord2ymd n))) (snd (fst (ord2ymd n))).
Proof.
  intros Hn. unfold MAXORDINAL in Hn. unfold ord2ymd. cbv zeta.
  set (n400 := (n - 1) / 146097).
  set (r400 := (n - 1) mod 146097).
  set (n100 := r400 / 36524).
  set (r100 := r400 mod 36524).
  set (n4 := r100 / 1461).
  set (r4 := r100 mod 1461).
  set (n1 := r4 / 365).
  set (r := r4 mod 365).
  assert (Hfacts :
    n - 1 = 146097 * n400 + r400 /\ 0 <= r400 < 146097 /\
    r400 = 36524 * n100 + r100 /\ 0 <= r100 < 36524 /\
    r100 = 1461 * n4 + r4 /\ 0 <= r4 < 1461 /\
    r4 = 365 * n1 + r /\ 0 <= r < 365).
  { unfold n400, r400, n100, r100, n4, r4, n1, r.
    repeat split; try (apply Z.div_mod; lia); try (apply Z.mod_pos_bound; lia). }
  clearbody n400 r400 n100 r100 n4 r4 n1 r.
  destruct Hfacts as (E400 & B400 & E100 & B100 & E4 & B4 & E1 & B1).
  destruct (Z.eqb_spec n1 4) as [H14|H14];
    [|destruct (Z.eqb_spec n100 4) as [H1004|H1004]]; cbn [orb fst snd].
  - unfold days_in_month. cbn. lia.
  - unfold days_in_month. cbn. lia.
  - pose proof (month_and_day_valid r
                  ((n1 =? 3) && (negb (n4 =? 24) || (n100 =? 3))) B1) as [Hm Hd].
    split; [lia|]. split; [exact Hm|].
    unfold days_in_month.
    replace (is_leap (n400 * 400 + 1 + n100 * 100 + n4 * 4 + n1))
      with ((n1 =? 3) && (negb (n4 =? 24) || (n100 =? 3))); [exact Hd|].
    unfold is_leap.
    destruct (Z.eqb_spec n1 3); destruct (Z.eqb_spec n4 24);
      destruct (Z.eqb_spec n100 3);
      destruct (Z.eqb_spec ((n400 * 400 + 1 + n100 * 100 + n4 * 4 + n1) mod 4) 0);
      destruct (Z.eqb_spec ((n400 * 400 + 1 + n100 * 100 + n4 * 4 + n1) mod 100) 0);
      destruct (Z.eqb_spec ((n400 * 400 + 1 + n100 * 100 + n4 * 4 + n1) mod 400) 0);
      cbn [negb andb orb]; try reflexivity; exfalso;
      Z.div_mod_to_equations; lia.
Qed.

Lemma from_micro_valid t d : from_micro t = Return d -> valid_datetime d.
Proof.
  unfold from_micro.
  destruct ((0 <? t / US_PER_DAY) && (t / US_PER_DAY <=? MAXORDINAL)) eqn:Hrange;
    [|discriminate].
  apply andb_true_iff in Hrange as [Hlo Hhi].
  apply Z.ltb_lt in Hlo. apply Z.leb_le in Hhi.
  pose proof (ord2ymd_valid (t / US_PER_DAY) ltac:(lia)) as (Hy & Hm & Hd).
  destruct (ord2ymd (t / US_PER_DAY)) as [[y m] dd]. cbn [fst snd] in *.
  intros [= <-]. unfold valid_datetime. cbn [year month day hour minute second
                                            microsecond].
  unfold US_PER_DAY, US_PER_SECOND in *.
  repeat split; try lia; Z.div_mod_to_equations; lia.
Qed.

Lemma datetime_minus_valid d delta past :
  datetime_minus d delta = Return past -> valid_datetime past.
Proof. unfold datetime_minus. apply from_micro_valid. Qed.

(** C9.  For datetimes that exist and have a four-digit year, rendered by
    [strftime]: the rendered strings compare as the instants do, taken in
    whole seconds as the format gives them; so the loop over rendered
    creation times returns what the reference filter on the datetimes
    returns, and [_get_old_comment_ids], on a successful answer and with a
    cutoff of a four-digit year, returns the reference filter's result for
    the cutoff it computed. *)
Theorem string_filter_is_the_chronological_filter
    (w : World) (org_name repo_name : string) (discussion_number : Z)
    (st : State) (a b : datetime) (dated : list (string * datetime)) :
  valid_datetime a -> 1000 <= year a ->
  valid_datetime b -> 1000 <= year b ->
  Forall (fun c => valid_datetime (snd c) /\ 1000 <= year (snd c)) dated ->
  success (comments w org_name repo_name discussion_number) ->
  body (comments w org_name repo_name discussion_number)
    = Some (map render_comment dated) ->
  str_lt (strftime a) (strftime b) = (to_seconds a <? to_seconds b) /\
  collect_old_comment_ids (map render_comment dated) (strftime b) []
    = reference_old_comment_ids dated b /\
  (forall past,
     datetime_minus (clock w (ticks st)) (60 * US_PER_DAY) = Return past ->
     1000 <= year past ->
     _get_old_comment_ids w org_name repo_name discussion_number st
     = (Return (reference_old_comment_ids dated past),
        ticked (logged [QueryComments org_name repo_name discussion_number] st))).
Proof.
  intros Ha Hfa Hb Hfb Hall Hs Hbody. split; [|split].
  - by apply str_lt_strftime.
  - by rewrite collect_old_comment_ids_reference.
  - intros past Hpast Hfour.
    rewrite (_get_old_comment_ids_run w _ _ _ st _ past Hs Hbody Hpast).
    rewrite collect_old_comment_ids_reference;
      [reflexivity| |exact Hfour|exact Hall].
    exact (datetime_minus_valid _ _ _ Hpast).
Qed.

Lemma sample_datetime_valid y m d h n s u :
  (1 <=? y) && (y <=? 9999) && (1 <=? m) && (m <=? 12) && (1 <=? d)
  && (d <=? days_in_month y m) && (0 <=? h) && (h <? 24) && (0 <=? n)
  && (n <? 60) && (0 <=? s) && (s <? 60) && (0 <=? u)
  && (u <? US_PER_SECOND) = true ->
  valid_datetime (mkDatetime y m d h n s u).
Proof.
  intros H. repeat (apply andb_true_iff in H as [H ?]).
  unfold valid_datetime. cbn [year month day hour minute second microsecond]. lia.
Qed.

Lemma string_filter_is_the_chronological_filter_witness :
  str_lt (strftime (mkDatetime 2024 1 2 12 0 0 0))
         (strftime (mkDatetime 2024 3 1 12 0 0 0))
  = (to_seconds (mkDatetime 2024 1 2 12 0 0 0)
     <? to_seconds (mkDatetime 2024 3 1 12 0 0 0)) /\
  collect_old_comment_ids (map render_comment seven_dated)
    (strftime (mkDatetime 2024 3 1 12 0 0 0)) []
  = reference_old_comment_ids seven_dated (mkDatetime 2024 3 1 12 0 0 0) /\
  (forall past,
     datetime_minus (clock comments_world (ticks ready)) (60 * US_PER_DAY)
       = Return past ->
     1000 <= year past ->
     _get_old_comment_ids comments_world "oppia" "oppia" 5 ready
     = (Return (reference_old_comment_ids seven_dated past),
        ticked (logged [QueryComments "oppia" "oppia" 5] ready))).
Proof.
  apply (string_filter_is_the_chronological_filter comments_world
           "oppia" "oppia" 5 ready
           (mkDatetime 2024 1 2 12 0 0 0) (mkDatetime 2024 3 1 12 0 0 0)
           seven_dated).
  - apply sample_datetime_valid. vm_compute. reflexivity.
  - simpl. lia.
  - apply sample_datetime_valid. vm_compute. reflexivity.
  - simpl. lia.
  - repeat constructor; try (apply sample_datetime_valid; vm_compute; reflexivity);
      simpl; lia.
  - left. vm_compute. reflexivity.
  - vm_compute. reflexivity.
Defined.

(** Below year 1000 the rendered order is not the order of the instants:
    1 March 999 is before 1 January 1000 and renders above it, so a comment
    created in 1000 is collected as older than a cutoff in 999, where the
    reference filter on the datetimes collects nothing. *)
Lemma short_year_breaks_the_string_order :
  valid_datetime (mkDatetime 999 3 1 13 0 0 0) /\
  valid_datetime (mkDatetime 1000 1 1 0 0 0 0) /\
  (to_seconds (mkDatetime 999 3 1 13 0 0 0)
   <? to_seconds (mkDatetime 1000 1 1 0 0 0 0)) = true /\
  str_lt (strftime (mkDatetime 999 3 1 13 0 0 0))
         (strftime (mkDatetime 1000 1 1 0 0 0 0)) = false /\
  collect_old_comment_ids
    (map render_comment [("g1"%string, mkDatetime 1000 1 1 0 0 0 0)])
    (strftime (mkDatetime 999 3 1 13 0 0 0)) [] = ["g1"%string] /\
  reference_old_comment_ids [("g1"%string, mkDatetime 1000 1 1 0 0 0 0)]
    (mkDatetime 999 3 1 13 0 0 0) = [].
Proof.
  split; [apply sample_datetime_valid; vm_compute; reflexivity|].
  split; [apply sample_datetime_valid; vm_compute; reflexivity|].
  repeat split; vm_compute; reflexivity.
Qed.

Example rendered_comments_sample :
  map render_comment seven_dated = seven_comments /\
  reference_old_comment_ids seven_dated (mkDatetime 2024 1 11 13 0 0 250000)
  = ["c1"; "c2"; "c3"; "c4"; "c5"]%string.
Proof. split; vm_compute; reflexivity. Qed.

(** * Further properties of the service *)

(** ** Discussion locator *)

Lemma find_first {A} (f : A -> bool) (pre : list A) (x : A) (post : list A) :
  (forall y, y ∈ pre -> f y = false) -> f x = true ->
  find f (pre ++ x :: post) = Some x.
Proof.
  intros Hpre Hx. induction pre as [|y pre IH]; simpl.
  - by rewrite Hx.
  - rewrite (Hpre y) by left. apply IH. intros z Hz. apply Hpre. by right.
Qed.

Lemma find_nowhere {A} (f : A -> bool) (l : list A) :
  (forall y, y ∈ l -> f y = false) -> find f l = None.
Proof.
  intros Hl. induction l as [|y l IH]; simpl; [reflexivity|].
  rewrite (Hl y) by left. apply IH. intros z Hz. apply Hl. by right.
Qed.

Lemma _get_discussion_data_found
    (w : World) (org_name repo_name discussion_category discussion_title : string)
    (st : State) (cats : list Category) (c : Category)
    (ds : list Discussion) (d : Discussion) :
  _TOKEN st <> None ->
  body (categories w org_name repo_name) = Some cats ->
  find (fun c => String.eqb (name c) discussion_category) cats = Some c ->
  body (discussions w org_name repo_name (category_id c)) = Some ds ->
  find (fun d => String.eqb (title d) discussion_title) ds = Some d ->
  _get_discussion_data w org_name repo_name discussion_category discussion_title st
  = (Return (discussion_id d, discussion_number d),
     logged [QueryCategories org_name repo_name;
             QueryDiscussions org_name repo_name (category_id c)] st).
Proof.
  intros Htok Hcats Hc Hds Hd. unfold _get_discussion_data, check_token.
  destruct (_TOKEN st) as [tok|]; [|contradiction].
  unfold bind at 1. unfold send at 1. unfold bind at 1. unfold json at 1.
  rewrite Hcats. unfold ret at 1. rewrite Hc.
  unfold bind at 1. unfold send at 1. unfold bind at 1. unfold json at 1.
  rewrite Hds. unfold ret at 1. rewrite Hd. unfold ret.
  by rewrite logged_logged.
Qed.

(** X1.  The locator returns the identifier and the number of the first
    discussion with the requested title, looked up in the first category
    with the requested name; later entries of either name are not
    considered, and the status codes of the two answers are not looked
    at. *)
Theorem locator_returns_first_match
    (w : World) (org_name repo_name discussion_category discussion_title : string)
    (st : State) (cats_before cats_after : list Category) (c : Category)
    (ds_before ds_after : list Discussion) (d : Discussion) :
  _TOKEN st <> None ->
  body (categories w org_name repo_name) = Some (cats_before ++ c :: cats_after) ->
  (forall c', c' ∈ cats_before -> name c' <> discussion_category) ->
  name c = discussion_category ->
  body (discussions w org_name repo_name (category_id c))
    = Some (ds_before ++ d :: ds_after) ->
  (forall d', d' ∈ ds_before -> title d' <> discussion_title) ->
  title d = discussion_title ->
  _get_discussion_data w org_name repo_name discussion_category discussion_title st
  = (Return (discussion_id d, discussion_number d),
     logged [QueryCategories org_name repo_name;
             QueryDiscussions org_name repo_name (category_id c)] st).
Proof.
  intros Htok Hcats Hbefore Hc Hds Hdbefore Hd.
  eapply _get_discussion_data_found; try eassumption.
  - apply find_first.
    + intros c' Hc'. apply String.eqb_neq. by apply Hbefore.
    + by apply String.eqb_eq.
  - apply find_first.
    + intros d' Hd'. apply String.eqb_neq. by apply Hdbefore.
    + by apply String.eqb_eq.
Qed.

Lemma locator_returns_first_match_witness :
  _get_discussion_data twice_world "oppia" "oppia" "Reviews" "Pending reviews" ready
  = (Return ("D_1"%string, 5),
     logged [QueryCategories "oppia" "oppia";
             QueryDiscussions "oppia" "oppia" "C_1"] ready).
Proof.
  apply (locator_returns_first_match twice_world "oppia" "oppia" "Reviews"
           "Pending reviews" ready
           [mkCategory "C_0" "General"] [mkCategory "C_2" "Reviews"]
           (mkCategory "C_1" "Reviews")
           [mkDiscussion "D_0" "Welcome" 3] [mkDiscussion "D_2" "Pending reviews" 8]
           (mkDiscussion "D_1" "Pending reviews" 5)).
  - discriminate.
  - reflexivity.
  - intros c' Hc'. apply list_elem_of_singleton in Hc' as ->. discriminate.
  - reflexivity.
  - reflexivity.
  - intros d' Hd'. apply list_elem_of_singleton in Hd' as ->. discriminate.
  - reflexivity.
Defined.

(** X2.  When no category has the requested name, the locator raises the
    category error naming it, and the discussion lookup is not sent. *)
Theorem locator_category_missing
    (w : World) (org_name repo_name discussion_category discussion_title : string)
    (st : State) (cats : list Category) :
  _TOKEN st <> None ->
  body (categories w org_name repo_name) = Some cats ->
  (forall c, c ∈ cats -> name c <> discussion_category) ->
  _get_discussion_data w org_name repo_name discussion_category discussion_title st
  = (Raise (CategoryMissing discussion_category),
     logged [QueryCategories org_name repo_name] st).
Proof.
  intros Htok Hcats Hnone. unfold _get_discussion_data, check_token.
  destruct (_TOKEN st) as [tok|]; [|contradiction].
  unfold bind at 1. unfold send at 1. unfold bind at 1. unfold json at 1.
  rewrite Hcats. unfold ret at 1.
  rewrite find_nowhere; [reflexivity|].
  intros c Hc. apply String.eqb_neq. by apply Hnone.
Qed.

Lemma locator_category_missing_witness :
  _get_discussion_data twice_world "oppia" "oppia" "reviews" "Pending reviews" ready
  = (Raise (CategoryMissing "reviews"), logged [QueryCategories "oppia" "oppia"] ready).
Proof.
  apply (locator_category_missing twice_world "oppia" "oppia" "reviews"
           "Pending reviews" ready
           [mkCategory "C_0" "General"; mkCategory "C_1" "Reviews";
            mkCategory "C_2" "Reviews"]).
  - discriminate.
  - reflexivity.
  - intros c Hc.
    repeat (apply elem_of_cons in Hc as [->|Hc]; [discriminate|]).
    by apply elem_of_nil in Hc.
Defined.

(** X3.  When the category is found but none of its discussions has the
    requested title, the locator raises the discussion error naming the
    title, after the two lookups. *)
Theorem locator_discussion_not_found
    (w : World) (org_name repo_name discussion_category discussion_title : string)
    (st : State) (cats_before cats_after : list Category) (c : Category)
    (ds : list Discussion) :
  _TOKEN st <> None ->
  body (categories w org_name repo_name) = Some (cats_before ++ c :: cats_after) ->
  (forall c', c' ∈ cats_before -> name c' <> discussion_category) ->
  name c = discussion_category ->
  body (discussions w org_name repo_name (category_id c)) = Some ds ->
  (forall d, d ∈ ds -> title d <> discussion_title) ->
  _get_discussion_data w org_name repo_name discussion_category discussion_title st
  = (Raise (DiscussionNotFound discussion_title),
     logged [QueryCategories org_name repo_name;
             QueryDiscussions org_name repo_name (category_id c)] st).
Proof.
  intros Htok Hcats Hbefore Hc Hds Hnone. unfold _get_discussion_data, check_token.
  destruct (_TOKEN st) as [tok|]; [|contradiction].
  unfold bind at 1. unfold send at 1. unfold bind at 1. unfold json at 1.
  rewrite Hcats. unfold ret at 1.
  rewrite find_first.
  - unfold bind at 1. unfold send at 1. unfold bind at 1. unfold json at 1.
    rewrite Hds. unfold ret at 1. rewrite find_nowhere.
    + unfold raise. by rewrite logged_logged.
    + intros d Hd. apply String.eqb_neq. by apply Hnone.
  - intros c' Hc'. apply String.eqb_neq. by apply Hbefore.
  - by apply String.eqb_eq.
Qed.

Lemma locator_discussion_not_found_witness :
  _get_discussion_data no_discussion_world "oppia" "oppia" "Reviews"
    "Pending reviews" ready
  = (Raise (DiscussionNotFound "Pending reviews"),
     logged [QueryCategories "oppia" "oppia";
             QueryDiscussions "oppia" "oppia" "C_1"] ready).
Proof.
  apply (locator_discussion_not_found no_discussion_world "oppia" "oppia" "Reviews"
           "Pending reviews" ready
           [mkCategory "C_0" "General"] [mkCategory "C_2" "Reviews"]
           (mkCategory "C_1" "Reviews") []).
  - discriminate.
  - reflexivity.
  - intros c' Hc'. apply list_elem_of_singleton in Hc' as ->. discriminate.
  - reflexivity.
  - reflexivity.
  - intros d Hd. by apply elem_of_nil in Hd.
Defined.

(** ** Deleting and posting comments *)

Lemma _delete_comment_success (w : World) (i : string) (st : State) :
  success (deleted w i) ->
  _delete_comment w i st = (Return tt, logged [MutationDeleteComment i] st).
Proof.
  intros Hs. unfold _delete_comment. unfold bind, send.
  by rewrite raise_for_status_success.
Qed.

Lemma _delete_comment_failure (w : World) (i : string) (st : State) :
  ~ success (deleted w i) ->
  _delete_comment w i st = (Raise HTTPError, logged [MutationDeleteComment i] st).
Proof.
  intros Hs. unfold _delete_comment. unfold bind, send.
  by rewrite raise_for_status_failure.
Qed.

Lemma delete_all_success (w : World) (comment_ids : list string) : forall st,
  (forall i, i ∈ comment_ids -> success (deleted w i)) ->
  delete_all w comment_ids st
  = (Return tt, logged (map MutationDeleteComment comment_ids) st).
Proof.
  induction comment_ids as [|i ids IH]; intros st Hall.
  - unfold logged. simpl. rewrite app_nil_r. by destruct st.
  - cbn [delete_all]. unfold bind at 1.
    rewrite _delete_comment_success by (apply Hall; left).
    rewrite IH by (intros j Hj; apply Hall; by right).
    by rewrite logged_logged.
Qed.

(** X4.  Deletions are issued one by one in the order of the ids: when the
    first refused deletion is that of [bad], the mutations sent are those
    of the ids before it and its own, the error is the HTTP error, and no
    mutation is sent for an id after it. *)
Theorem deletion_stops_at_first_failure
    (w : World) (before after : list string) (bad : string) (st : State) :
  (forall i, i ∈ before -> success (deleted w i)) ->
  ~ success (deleted w bad) ->
  delete_all w (before ++ bad :: after) st
  = (Raise HTTPError,
     logged (map MutationDeleteComment (before ++ [bad])) st).
Proof.
  revert st. induction before as [|i ids IH]; intros st Hall Hbad.
  - cbn [app delete_all map]. unfold bind at 1.
    by rewrite _delete_comment_failure.
  - cbn [app delete_all]. unfold bind at 1.
    rewrite _delete_comment_success by (apply Hall; left).
    rewrite IH; [|intros j Hj; apply Hall; by right|exact Hbad].
    by rewrite logged_logged.
Qed.

Lemma deletion_stops_at_first_failure_witness :
  delete_all refusing_world ["c1"; "c2"; "c3"; "c4"; "c5"]%string ready
  = (Raise HTTPError,
     logged [MutationDeleteComment "c1"; MutationDeleteComment "c2";
             MutationDeleteComment "c3"] ready).
Proof.
  apply (deletion_stops_at_first_failure refusing_world
           ["c1"; "c2"]%string ["c4"; "c5"]%string "c3" ready).
  - intros i Hi.
    repeat (apply elem_of_cons in Hi as [->|Hi]; [left; vm_compute; reflexivity|]).
    by apply elem_of_nil in Hi.
  - intros [H|H]; vm_compute in H; [discriminate | by apply H].
Defined.

(** X5.  The deletion sweep, when everything answers: the two lookups, the
    comment query for the number the locator returned, one clock reading,
    then one delete mutation for each id of the stale prefix, in order. *)
Theorem deletion_sweep_deletes_the_stale_prefix
    (w : World) (org_name repo_name discussion_category discussion_title : string)
    (st : State) (cats : list Category) (c : Category)
    (ds : list Discussion) (d : Discussion)
    (discussion_comments : list Comment) (past : datetime) :
  _TOKEN st <> None ->
  body (categories w org_name repo_name) = Some cats ->
  find (fun c => String.eqb (name c) discussion_category) cats = Some c ->
  body (discussions w org_name repo_name (category_id c)) = Some ds ->
  find (fun d => String.eqb (title d) discussion_title) ds = Some d ->
  success (comments w org_name repo_name (discussion_number d)) ->
  body (comments w org_name repo_name (discussion_number d))
    = Some discussion_comments ->
  datetime_minus (clock w (ticks st)) (60 * US_PER_DAY) = Return past ->
  (forall i, i ∈ collect_old_comment_ids discussion_comments (strftime past) [] ->
     success (deleted w i)) ->
  delete_discussion_comments w org_name repo_name discussion_category
    discussion_title st
  = (Return tt,
     ticked (logged
       ([QueryCategories org_name repo_name;
         QueryDiscussions org_name repo_name (category_id c);
         QueryComments org_name repo_name (discussion_number d)]
        ++ map MutationDeleteComment
             (collect_old_comment_ids discussion_comments (strftime past) []))
       st)).
Proof.
  intros Htok Hcats Hc Hds Hd Hs Hbody Hpast Hdel.
  unfold delete_discussion_comments, check_token.
  destruct (_TOKEN st) as [tok|] eqn:Etok; [|contradiction].
  unfold bind at 1.
  rewrite (_get_discussion_data_found w _ _ _ _ st cats c ds d)
    by (try assumption; congruence).
  cbn [snd]. unfold bind at 1.
  rewrite (_get_old_comment_ids_run w _ _ _ _ discussion_comments past Hs Hbody)
    by exact Hpast.
  rewrite delete_all_success by exact Hdel.
  unfold ticked, logged. cbn [_TOKEN sent ticks].
  repeat rewrite <- app_assoc. reflexivity.
Qed.

Lemma deletion_sweep_deletes_the_stale_prefix_witness :
  delete_discussion_comments comments_world "oppia" "oppia" "Reviews"
    "Pending reviews" ready
  = (Return tt,
     ticked (logged
       ([QueryCategories "oppia" "oppia"; QueryDiscussions "oppia" "oppia" "C_1";
         QueryComments "oppia" "oppia" 5]
        ++ map MutationDeleteComment
             (collect_old_comment_ids seven_comments
                (strftime (mkDatetime 2024 1 11 13 0 0 250000)) []))
       ready)).
Proof.
  apply (deletion_sweep_deletes_the_stale_prefix comments_world "oppia" "oppia"
           "Reviews" "Pending reviews" ready
           [mkCategory "C_1" "Reviews"] (mkCategory "C_1" "Reviews")
           [mkDiscussion "D_1" "Pending reviews" 5]
           (mkDiscussion "D_1" "Pending reviews" 5)
           seven_comments (mkDatetime 2024 1 11 13 0 0 250000)).
  - discriminate.
  - reflexivity.
  - reflexivity.
  - reflexivity.
  - reflexivity.
  - left. vm_compute. reflexivity.
  - reflexivity.
  - vm_compute. reflexivity.
  - intros i _. left. vm_compute. reflexivity.
Defined.

(** X6.  Posting, once the locator has found the discussion: the mutation is
    sent for the identifier the locator returned; the call returns when the
    answer is a success and raises the HTTP error when it is not, the
    mutation having been sent either way. *)
Theorem posting_follows_the_locator
    (w : World) (org_name repo_name discussion_category discussion_title : string)
    (message : string) (st : State) (cats : list Category) (c : Category)
    (ds : list Discussion) (d : Discussion) :
  _TOKEN st <> None ->
  body (categories w org_name repo_name) = Some cats ->
  find (fun c => String.eqb (name c) discussion_category) cats = Some c ->
  body (discussions w org_name repo_name (category_id c)) = Some ds ->
  find (fun d => String.eqb (title d) discussion_title) ds = Some d ->
  add_discussion_comments w org_name repo_name discussion_category
    discussion_title message st
  = ((if (400 <=? status_code (posted w (discussion_id d) message))
         && (status_code (posted w (discussion_id d) message) <? 600)
      then Raise HTTPError else Return tt),
     logged [QueryCategories org_name repo_name;
             QueryDiscussions org_name repo_name (category_id c);
             MutationPostComment (discussion_id d) message] st).
Proof.
  intros Htok Hcats Hc Hds Hd.
  unfold add_discussion_comments, check_token.
  destruct (_TOKEN st) as [tok|] eqn:Etok; [|contradiction].
  unfold bind at 1.
  rewrite (_get_discussion_data_found w _ _ _ _ st cats c ds d)
    by (try assumption; congruence).
  cbn [fst]. unfold _post_comment, bind, send, raise_for_status.
  rewrite logged_logged.
  destruct ((400 <=? status_code (posted w (discussion_id d) message))
            && (status_code (posted w (discussion_id d) message) <? 600));
    reflexivity.
Qed.

Lemma posting_follows_the_locator_witness :
  add_discussion_comments refusing_world "oppia" "oppia" "Reviews"
    "Pending reviews" "hello" ready
  = (Raise HTTPError,
     logged [QueryCategories "oppia" "oppia"; QueryDiscussions "oppia" "oppia" "C_1";
             MutationPostComment "D_1" "hello"] ready) /\
  add_discussion_comments comments_world "oppia" "oppia" "Reviews"
    "Pending reviews" "hello" ready
  = (Return tt,
     logged [QueryCategories "oppia" "oppia"; QueryDiscussions "oppia" "oppia" "C_1";
             MutationPostComment "D_1" "hello"] ready).
Proof.
  split.
  - apply (posting_follows_the_locator refusing_world "oppia" "oppia" "Reviews"
             "Pending reviews" "hello" ready
             [mkCategory "C_1" "Reviews"] (mkCategory "C_1" "Reviews")
             [mkDiscussion "D_1" "Pending reviews" 5]
             (mkDiscussion "D_1" "Pending reviews" 5));
      [discriminate | reflexivity..].
  - apply (posting_follows_the_locator comments_world "oppia" "oppia" "Reviews"
             "Pending reviews" "hello" ready
             [mkCategory "C_1" "Reviews"] (mkCategory "C_1" "Reviews")
             [mkDiscussion "D_1" "Pending reviews" 5]
             (mkDiscussion "D_1" "Pending reviews" 5));
      [discriminate | reflexivity..].
Defined.

(** X7.  A failure of the locator ends both discussion operations before the
    comment query, any deletion or the posting is sent. *)
Theorem locator_failure_stops_the_operation
    (w : World) (org_name repo_name discussion_category discussion_title : string)
    (message : string) (st st' : State) (e : exn) :
  _get_discussion_data w org_name repo_name discussion_category
    discussion_title st = (Raise e, st') ->
  delete_discussion_comments w org_name repo_name discussion_category
    discussion_title st = (Raise e, st') /\
  add_discussion_comments w org_name repo_name discussion_category
    discussion_title message st = (Raise e, st').
Proof.
  intros Hloc. unfold delete_discussion_comments, add_discussion_comments,
    check_token.
  destruct (_TOKEN st) as [tok|] eqn:Etok.
  - unfold bind. rewrite Hloc. by split.
  - unfold _get_discussion_data, check_token in Hloc. rewrite Etok in Hloc.
    injection Hloc as <- <-. by split.
Qed.

Lemma locator_failure_stops_the_operation_witness :
  delete_discussion_comments twice_world "oppia" "oppia" "reviews"
    "Pending reviews" ready
  = (Raise (CategoryMissing "reviews"), logged [QueryCategories "oppia" "oppia"] ready).
Proof.
  apply (locator_failure_stops_the_operation twice_world "oppia" "oppia" "reviews"
           "Pending reviews" "hello" ready).
  vm_compute. reflexivity.
Defined.

(** ** Refused pages *)

Section RefusedPages.

Variable parse : string -> option datetime.
Variable w : World.
Variables org_name repo_name : string.

Lemma timeline_loop_refused fuel pr_num page pr_dict updated st :
  ~ success (timeline w org_name repo_name pr_num page) ->
  timeline_loop parse w (S fuel) org_name repo_name pr_num page pr_dict updated st
  = (Raise HTTPError, logged [GetTimeline org_name repo_name pr_num page] st).
Proof.
  intros Hs. cbn [timeline_loop]. unfold bind at 1. unfold send.
  unfold bind at 1. by rewrite raise_for_status_failure.
Qed.

(** Good pages are walked through one request each, the events folded as
    one list, and the loop goes on from the page after them. *)
Lemma timeline_loop_through pages : forall fuel pr_num first pr_dict updated st locals,
  Forall (fun page => page <> []) pages ->
  (forall i page, pages !! i = Some page ->
     success (timeline w org_name repo_name pr_num (first + i)%nat) /\
     body (timeline w org_name repo_name pr_num (first + i)%nat) = Some page) ->
  scan_events parse (concat pages) pr_dict updated = Return locals ->
  timeline_loop parse w (length pages + fuel) org_name repo_name pr_num first
    pr_dict updated st
  = timeline_loop parse w fuel org_name repo_name pr_num (first + length pages)
      (fst locals) (snd locals)
      (logged (map (GetTimeline org_name repo_name pr_num)
                   (seq first (length pages))) st).
Proof.
  induction pages as [|page pages IH];
    intros fuel pr_num first d u st locals Hne Hpages Hscan.
  - simpl in *. injection Hscan as <-. rewrite Nat.add_0_r.
    unfold logged. simpl. rewrite app_nil_r. by destruct st.
  - destruct (Hpages 0%nat page eq_refl) as [Hs0 Hb0].
    rewrite Nat.add_0_r in Hs0, Hb0.
    apply Forall_cons in Hne as [Hne0 Hne].
    destruct page as [|ev evs]; [contradiction|].
    change (concat ((ev :: evs) :: pages)) with ((ev :: evs) ++ concat pages) in Hscan.
    rewrite scan_events_app in Hscan.
    destruct (scan_events parse (ev :: evs) d u) as [mid| |] eqn:Hmid;
      simpl in Hscan; try discriminate.
    cbn [length Nat.add].
    rewrite (timeline_loop_step parse w org_name repo_name _ _ _ _ _ _ _ _ _
               Hs0 Hb0 Hmid).
    rewrite (IH fuel pr_num (S first) (fst mid) (snd mid) _ locals Hne).
    + rewrite logged_logged. cbn [seq map app].
      replace (S first + length pages)%nat with (first + S (length pages))%nat by lia.
      reflexivity.
    + intros i pg Hi. replace (S first + i)%nat with (first + S i)%nat by lia.
      apply Hpages. exact Hi.
    + exact Hscan.
Qed.

End RefusedPages.

(** X8.  A refused page of the pull-request listing, at whatever page number and
    with whatever has been collected so far: the scan raises the HTTP error
    right after that request, and the mapping collected so far is not
    returned. *)
Theorem refused_pull_page_aborts_the_scan
    (parse : string -> option datetime) (w : World) (fuel : nat)
    (org_name repo_name : string) (max_waiting_time_in_hours : Z) (page : nat)
    (reviewer_to_assigned_prs : gmap string (list PullRequest)) (st : State) :
  ~ success (pulls w org_name repo_name page) ->
  pulls_loop parse w (S fuel) org_name repo_name max_waiting_time_in_hours
    page reviewer_to_assigned_prs st
  = (Raise HTTPError, logged [GetPulls org_name repo_name page] st).
Proof.
  intros Hs. cbn [pulls_loop]. unfold bind at 1. unfold send.
  unfold bind at 1. by rewrite raise_for_status_failure.
Qed.

(** X9.  A timeline whose first pages are good and whose next page is refused:
    reconciliation raises the HTTP error after requesting the good pages
    and the refused one, once each, and returns no pull request. *)
Theorem refused_timeline_page_aborts_reconciliation
    (parse : string -> option datetime) (w : World) (fuel : nat)
    (org_name repo_name : string) (pr_dict : PrDict)
    (pages : list (list TimelineEvent)) (st : State) :
  _TOKEN st <> None ->
  Forall (fun page => page <> []) pages ->
  (forall i page, pages !! i = Some page ->
     success (timeline w org_name repo_name (number pr_dict) (1 + i)%nat) /\
     body (timeline w org_name repo_name (number pr_dict) (1 + i)%nat) = Some page) ->
  (forall e, e ∈ concat pages -> is_assigned e = true ->
     is_Some (parse (event_created_at e))) ->
  ~ success (timeline w org_name repo_name (number pr_dict) (1 + length pages)%nat) ->
  (length pages < fuel)%nat ->
  get_pull_request_object_from_dict parse w fuel org_name repo_name pr_dict st
  = (Raise HTTPError,
     logged (map (GetTimeline org_name repo_name (number pr_dict))
                 (seq 1 (S (length pages)))) st).
Proof.
  intros Htok Hne Hpages Hparse Hbad Hfuel.
  destruct (scan_events_parsed parse (concat pages) pr_dict None Hparse)
    as (d & Hscan & _).
  unfold get_pull_request_object_from_dict, check_token.
  destruct (_TOKEN st) as [tok|]; [|contradiction].
  unfold bind.
  replace fuel with (length pages + S (fuel - S (length pages)))%nat by lia.
  rewrite (timeline_loop_through parse w org_name repo_name pages _ _ 1 pr_dict None
             st _ Hne Hpages Hscan).
  rewrite timeline_loop_refused by exact Hbad.
  rewrite logged_logged.
  replace (seq 1 (S (length pages)))
    with (seq 1 (length pages) ++ [(1 + length pages)%nat])
    by (rewrite <- seq_S; reflexivity).
  by rewrite map_app.
Qed.

Lemma refused_pull_page_aborts_the_scan_witness :
  pulls_loop iso_parse throttled_world 1 "oppia" "oppia" 1 2
    (append_pr "bob" pr42_reconciled ∅) ready
  = (Raise HTTPError, logged [GetPulls "oppia" "oppia" 2] ready).
Proof.
  apply (refused_pull_page_aborts_the_scan iso_parse throttled_world 0
           "oppia" "oppia" 1 2 (append_pr "bob" pr42_reconciled ∅) ready).
  intros [H|H]; vm_compute in H; [discriminate | by apply H].
Defined.

Lemma refused_timeline_page_aborts_reconciliation_witness :
  get_pull_request_object_from_dict iso_parse throttled_world 5 "oppia" "oppia"
    pr42 ready
  = (Raise HTTPError,
     logged [GetTimeline "oppia" "oppia" 42 1; GetTimeline "oppia" "oppia" 42 2]
       ready).
Proof.
  apply (refused_timeline_page_aborts_reconciliation iso_parse throttled_world 5
           "oppia" "oppia" pr42 [pr42_timeline 1] ready).
  - discriminate.
  - repeat constructor; discriminate.
  - intros i page Hi. destruct i as [|i]; simpl in Hi; inversion Hi; subst.
    split; [left; vm_compute; reflexivity | reflexivity].
  - intros e He _. simpl in He.
    repeat (apply elem_of_cons in He as [->|He]; [eexists; reflexivity|]).
    by apply elem_of_nil in He.
  - intros [H|H]; vm_compute in H; [discriminate | by apply H].
  - simpl. lia.
Defined.

(** ** One event on one dictionary *)

Lemma stamp_assignees_without_match
    (parse : string -> option datetime) (l : list AssigneeDict) (ev : TimelineEvent) :
  (forall a, a ∈ l -> login a <> assignee ev) ->
  stamp_assignees parse l ev = Return l.
Proof.
  intros Hl. induction l as [|a l IH]; simpl; [reflexivity|].
  destruct (String.eqb (assignee ev) (login a)) eqn:E.
  - apply String.eqb_eq in E. exfalso. apply (Hl a); [by left | done].
  - rewrite IH; [reflexivity|]. intros b Hb. apply Hl. by right.
Qed.

(** X10.  An event that names none of the pull request's assignees leaves the
    dictionary as it is, and its date is never parsed: this holds whatever
    [parse] would do with it. *)
Theorem event_for_a_stranger_changes_nothing
    (parse : string -> option datetime) (pr_dict : PrDict) (ev : TimelineEvent) :
  (forall a, a ∈ assignees pr_dict -> login a <> assignee ev) ->
  get_pull_request_dict_with_timestamp parse pr_dict ev = Return pr_dict.
Proof.
  intros Hl. unfold get_pull_request_dict_with_timestamp.
  rewrite stamp_assignees_without_match by exact Hl.
  simpl. by destruct pr_dict.
Qed.

Lemma event_for_a_stranger_changes_nothing_witness :
  get_pull_request_dict_with_timestamp (fun _ => None) pr42
    (mkEvent "assigned" "carol" "yesterday")
  = Return pr42.
Proof.
  apply (event_for_a_stranger_changes_nothing (fun _ => None) pr42
           (mkEvent "assigned" "carol" "yesterday")).
  intros a Ha. simpl in Ha.
  repeat (apply elem_of_cons in Ha as [->|Ha]; [discriminate|]).
  by apply elem_of_nil in Ha.
Defined.

(** X11.  An event that names an assignee and carries a date the parser refuses
    makes the call raise the parser's error. *)
Theorem unparsable_date_of_a_match_raises
    (parse : string -> option datetime) (pr_dict : PrDict) (ev : TimelineEvent)
    (a : AssigneeDict) :
  a ∈ assignees pr_dict ->
  login a = assignee ev ->
  parse (event_created_at ev) = None ->
  get_pull_request_dict_with_timestamp parse pr_dict ev = Raise ParserError.
Proof.
  intros Ha Hlogin Hparse. unfold get_pull_request_dict_with_timestamp.
  assert (H : stamp_assignees parse (assignees pr_dict) ev = Raise ParserError);
    [|by rewrite H].
  induction (assignees pr_dict) as [|b l IH]; [by apply elem_of_nil in Ha|].
  simpl. destruct (String.eqb (assignee ev) (login b)) eqn:E.
  - by rewrite Hparse.
  - apply elem_of_cons in Ha as [->|Ha].
    + rewrite Hlogin, String.eqb_refl in E. discriminate.
    + by rewrite IH.
Qed.

Lemma unparsable_date_of_a_match_raises_witness :
  get_pull_request_dict_with_timestamp iso_parse pr42
    (mkEvent "assigned" "bob" "1 March 2024")
  = Raise ParserError.
Proof.
  apply (unparsable_date_of_a_match_raises iso_parse pr42
           (mkEvent "assigned" "bob" "1 March 2024") (mkAssigneeDict "bob" None)).
  - left.
  - reflexivity.
  - vm_compute. reflexivity.
Defined.

(** X12.  An event with a parsable date: the call returns a dictionary with the
    same number, author, logins and order of assignees; every entry with
    the event's login, duplicates included, carries the parsed date, and
    every other entry is the one it was. *)
Theorem parsed_event_stamps_every_match
    (parse : string -> option datetime) (pr_dict : PrDict) (ev : TimelineEvent)
    (t : datetime) :
  parse (event_created_at ev) = Some t ->
  exists d,
    get_pull_request_dict_with_timestamp parse pr_dict ev = Return d /\
    number d = number pr_dict /\ user d = user pr_dict /\
    map login (assignees d) = map login (assignees pr_dict) /\
    forall i a, assignees pr_dict !! i = Some a ->
      assignees d !! i
      = Some (if String.eqb (assignee ev) (login a)
              then mkAssigneeDict (login a) (Some t) else a).
Proof.
  intros Ht. unfold get_pull_request_dict_with_timestamp.
  rewrite (stamp_assignees_parsed parse _ _ _ Ht). simpl.
  eexists. split; [reflexivity|]. simpl. repeat split.
  - rewrite map_map. apply map_ext. intros a. apply login_stamp_one.
  - intros i a Hi. rewrite list_lookup_fmap, Hi. simpl.
    unfold stamp_one. by rewrite Ht.
Qed.

Lemma parsed_event_stamps_every_match_witness :
  exists d,
    get_pull_request_dict_with_timestamp iso_parse
      (mkPrDict 9 "alice" [mkAssigneeDict "bob" None; mkAssigneeDict "carol" None;
                           mkAssigneeDict "bob" None])
      (mkEvent "assigned" "bob" "2024-03-01T12:00:00Z") = Return d /\
    assignees d !! 2%nat
    = Some (mkAssigneeDict "bob" (Some (mkDatetime 2024 3 1 12 0 0 0))) /\
    assignees d !! 1%nat = Some (mkAssigneeDict "carol" None).
Proof.
  destruct (parsed_event_stamps_every_match iso_parse
              (mkPrDict 9 "alice" [mkAssigneeDict "bob" None;
                                   mkAssigneeDict "carol" None;
                                   mkAssigneeDict "bob" None])
              (mkEvent "assigned" "bob" "2024-03-01T12:00:00Z")
              (mkDatetime 2024 3 1 12 0 0 0))
    as (d & Hrun & _ & _ & _ & Hall).
  - vm_compute. reflexivity.
  - exists d. split; [exact Hrun|]. split.
    + apply (Hall 2%nat (mkAssigneeDict "bob" None)). reflexivity.
    + apply (Hall 1%nat (mkAssigneeDict "carol" None)). reflexivity.
Defined.

(** ** What the operations leave alone *)

Lemma steady_refl st : steady st st.
Proof. split; [reflexivity|]. split; [exists []; by rewrite app_nil_r | lia]. Qed.

Lemma steady_trans st1 st2 st3 : steady st1 st2 -> steady st2 st3 -> steady st1 st3.
Proof.
  intros (Ht1 & [m1 Hs1] & Hc1) (Ht2 & [m2 Hs2] & Hc2).
  split; [congruence|]. split; [|lia].
  exists (m1 ++ m2). by rewrite Hs2, Hs1, app_assoc.
Qed.

Lemma keeps_ret {A} (a : A) : keeps (ret a).
Proof. intros st. apply steady_refl. Qed.

Lemma keeps_raise {A} (e : exn) : keeps (raise (A:=A) e).
Proof. intros st. apply steady_refl. Qed.

Lemma keeps_lift {A} (o : outcome A) : keeps (lift o).
Proof. intros st. apply steady_refl. Qed.

Lemma keeps_bind {A B} (m : M A) (k : A -> M B) :
  keeps m -> (forall a, keeps (k a)) -> keeps (bind m k).
Proof.
  intros Hm Hk st. unfold bind. specialize (Hm st).
  destruct (m st) as [[a| |] st1]; simpl in *; try exact Hm.
  eapply steady_trans; [exact Hm | apply Hk].
Qed.

Lemma keeps_check_token {A} (m : M A) : keeps m -> keeps (check_token m).
Proof.
  intros Hm st. unfold check_token. destruct (_TOKEN st); [apply Hm|].
  apply steady_refl.
Qed.

Lemma keeps_send {A} (req : Request) (resp : Response A) : keeps (send req resp).
Proof.
  intros st. unfold steady, send, logged. simpl.
  split; [reflexivity|]. split; [by eexists | lia].
Qed.

Lemma keeps_raise_for_status {A} (r : Response A) : keeps (raise_for_status r).
Proof.
  unfold raise_for_status. destruct (_ && _); [apply keeps_raise | apply keeps_ret].
Qed.

Lemma keeps_json {A} (r : Response A) : keeps (json r).
Proof. unfold json. destruct (body r); [apply keeps_ret | apply keeps_raise]. Qed.

Lemma keeps_now (w : World) : keeps (now w).
Proof.
  intros st. unfold steady, now, ticked. simpl.
  split; [reflexivity|]. split; [exists []; by rewrite app_nil_r | lia].
Qed.

Section Keeps.

Variable parse : string -> option datetime.
Variable w : World.

Lemma keeps_timeline_loop fuel org_name repo_name pr_num :
  forall page d u, keeps (timeline_loop parse w fuel org_name repo_name pr_num page d u).
Proof.
  induction fuel as [|fuel IH]; intros page d u; cbn [timeline_loop].
  - apply keeps_lift.
  - apply keeps_bind; [apply keeps_send|]. intros response.
    apply keeps_bind; [apply keeps_raise_for_status|]. intros _.
    apply keeps_bind; [apply keeps_json|]. intros [|ev evs]; [apply keeps_ret|].
    apply keeps_bind; [apply keeps_lift|]. intros locals. apply IH.
Qed.

Lemma keeps_get_pull_request_object_from_dict fuel org_name repo_name pr_dict :
  keeps (get_pull_request_object_from_dict parse w fuel org_name repo_name pr_dict).
Proof.
  apply keeps_check_token. apply keeps_bind; [apply keeps_timeline_loop|].
  intros locals. destruct (snd locals); [apply keeps_ret | apply keeps_raise].
Qed.

Lemma keeps_scan_reviewers h p reviewers :
  forall acc, keeps (scan_reviewers w h p reviewers acc).
Proof.
  induction reviewers as [|r rest IH]; intros acc; cbn [scan_reviewers].
  - apply keeps_ret.
  - apply keeps_bind; [apply keeps_now|]. intros t.
    apply keeps_bind; [apply keeps_lift|]. intros pending.
    destruct (negb _); [|apply IH].
    apply keeps_bind; [apply keeps_lift|]. intros threshold.
    destruct (threshold <=? pending); apply IH.
Qed.

Lemma keeps_scan_pull_requests h prs :
  forall acc, keeps (scan_pull_requests w h prs acc).
Proof.
  induction prs as [|p prs IH]; intros acc; cbn [scan_pull_requests].
  - apply keeps_ret.
  - destruct (negb _); [apply IH|].
    apply keeps_bind; [apply keeps_scan_reviewers|]. intros d. apply IH.
Qed.

Lemma keeps_build_pull_requests fuel org_name repo_name pr_subset :
  keeps (build_pull_requests parse w fuel org_name repo_name pr_subset).
Proof.
  induction pr_subset as [|pr rest IH]; cbn [build_pull_requests].
  - apply keeps_ret.
  - apply keeps_bind; [apply keeps_get_pull_request_object_from_dict|]. intros p.
    apply keeps_bind; [apply IH|]. intros ps. apply keeps_ret.
Qed.

Lemma keeps_pulls_loop fuel org_name repo_name h :
  forall page acc, keeps (pulls_loop parse w fuel org_name repo_name h page acc).
Proof.
  induction fuel as [|fuel IH]; intros page acc; cbn [pulls_loop].
  - apply keeps_lift.
  - apply keeps_bind; [apply keeps_send|]. intros response.
    apply keeps_bind; [apply keeps_raise_for_status|]. intros _.
    apply keeps_bind; [apply keeps_json|]. intros [|pr prs]; [apply keeps_ret|].
    apply keeps_bind; [apply keeps_build_pull_requests|]. intros ps.
    apply keeps_bind; [apply keeps_scan_pull_requests|]. intros d. apply IH.
Qed.

Lemma keeps__get_discussion_data org_name repo_name category title_ :
  keeps (_get_discussion_data w org_name repo_name category title_).
Proof.
  apply keeps_check_token.
  apply keeps_bind; [apply keeps_send|]. intros response.
  apply keeps_bind; [apply keeps_json|]. intros cats.
  destruct (find _ cats); [|apply keeps_raise].
  apply keeps_bind; [apply keeps_send|]. intros response2.
  apply keeps_bind; [apply keeps_json|]. intros ds.
  destruct (find _ ds); [apply keeps_ret | apply keeps_raise].
Qed.

Lemma keeps__get_old_comment_ids org_name repo_name n :
  keeps (_get_old_comment_ids w org_name repo_name n).
Proof.
  apply keeps_bind; [apply keeps_send|]. intros response.
  apply keeps_bind; [apply keeps_raise_for_status|]. intros _.
  apply keeps_bind; [apply keeps_json|]. intros cs.
  apply keeps_bind; [|intros; apply keeps_ret].
  apply keeps_bind; [apply keeps_now|]. intros t.
  apply keeps_bind; [apply keeps_lift|]. intros delta.
  apply keeps_bind; [apply keeps_lift|]. intros past. apply keeps_ret.
Qed.

Lemma keeps_delete_all ids : keeps (delete_all w ids).
Proof.
  induction ids as [|i ids IH]; cbn [delete_all]; [apply keeps_ret|].
  apply keeps_bind; [|intros; apply IH].
  apply keeps_bind; [apply keeps_send | intros; apply keeps_raise_for_status].
Qed.

End Keeps.

(** X13.  Whatever its outcome (a result, an error, or a loop still running when
    the fuel is spent), no operation of the service changes the stored
    token or removes a request from those already sent; only
    [init_service] writes the token. *)
Theorem operations_keep_the_token
    (parse : string -> option datetime) (w : World) (fuel : nat)
    (org_name repo_name discussion_category discussion_title message : string)
    (max_waiting_time_in_hours : Z) (pr_dict : PrDict) :
  keeps (get_prs_assigned_to_reviewers parse w fuel org_name repo_name
           max_waiting_time_in_hours) /\
  keeps (get_pull_request_object_from_dict parse w fuel org_name repo_name pr_dict) /\
  keeps (_get_discussion_data w org_name repo_name discussion_category
           discussion_title) /\
  keeps (delete_discussion_comments w org_name repo_name discussion_category
           discussion_title) /\
  keeps (add_discussion_comments w org_name repo_name discussion_category
           discussion_title message).
Proof.
  split; [|split; [|split; [|split]]].
  - apply keeps_check_token, keeps_pulls_loop.
  - apply keeps_get_pull_request_object_from_dict.
  - apply keeps__get_discussion_data.
  - apply keeps_check_token.
    apply keeps_bind; [apply keeps__get_discussion_data|]. intros data.
    apply keeps_bind; [apply keeps__get_old_comment_ids|]. intros ids.
    apply keeps_delete_all.
  - apply keeps_check_token.
    apply keeps_bind; [apply keeps__get_discussion_data|]. intros data.
    apply keeps_bind; [apply keeps_send | intros; apply keeps_raise_for_status].
Qed.

(** ** What the returned mapping says *)

Section Judged.

Variable parse : string -> option datetime.
Variable w : World.
Variable h : Z.
Variable P : gmap string (list PullRequest) -> Prop.
Hypothesis P_judged : forall r p d ts n threshold,
  r ∈ pr_assignees p -> username r <> author_username p ->
  assigned_on_timestamp r = Some ts ->
  timedelta_hours h = Return threshold ->
  threshold <= datetime_sub (clock w n) ts ->
  P d -> P (append_pr (username r) p d).

Lemma scan_reviewers_judged p reviewers : forall acc st d st',
  (forall r, r ∈ reviewers -> r ∈ pr_assignees p) ->
  P acc ->
  scan_reviewers w h p reviewers acc st = (Return d, st') -> P d.
Proof.
  induction reviewers as [|r rest IH]; intros acc st d st' Hsub Hacc Hrun.
  - cbn in Hrun. injection Hrun as <- _. exact Hacc.
  - assert (Hrest : forall r', r' ∈ rest -> r' ∈ pr_assignees p).
    { intros r' Hr'. apply Hsub. by right. }
    cbn [scan_reviewers] in Hrun.
    apply bind_inv in Hrun as (t & st1 & Hnow & Hrun).
    unfold now in Hnow. injection Hnow as <- <-.
    apply bind_inv in Hrun as (pending & st2 & Hpending & Hrun).
    destruct (assigned_on_timestamp r) as [ts|] eqn:Hts;
      unfold lift in Hpending; [|discriminate].
    injection Hpending as <- <-.
    destruct (String.eqb (username r) (author_username p)) eqn:Heq;
      cbn [negb] in Hrun.
    + eapply IH; eassumption.
    + apply bind_inv in Hrun as (threshold & st3 & Hth & Hrun).
      unfold lift in Hth.
      destruct (timedelta_hours h) as [th| |] eqn:Hhours; try discriminate.
      injection Hth as <- <-.
      destruct (th <=? datetime_sub (clock w (ticks st)) ts) eqn:Hle.
      * eapply IH; [exact Hrest| |exact Hrun].
        apply (P_judged r p acc ts (ticks st) th);
          [apply Hsub; by left | by apply String.eqb_neq | exact Hts
          | reflexivity | by apply Z.leb_le | exact Hacc].
      * eapply IH; eassumption.
Qed.

Lemma scan_pull_requests_judged prs : forall acc st d st',
  P acc ->
  scan_pull_requests w h prs acc st = (Return d, st') -> P d.
Proof.
  induction prs as [|p prs IH]; intros acc st d st' Hacc Hrun.
  - cbn in Hrun. injection Hrun as <- _. exact Hacc.
  - cbn [scan_pull_requests] in Hrun.
    destruct (negb (is_reviewer_assigned p)).
    + eapply IH; eassumption.
    + apply bind_inv in Hrun as (d1 & st1 & Hrev & Hrun).
      eapply IH; [|eassumption].
      eapply scan_reviewers_judged; [|exact Hacc|exact Hrev]. auto.
Qed.

Lemma pulls_loop_judged org_name repo_name fuel : forall page acc st d st',
  P acc ->
  pulls_loop parse w fuel org_name repo_name h page acc st = (Return d, st') ->
  P d.
Proof.
  induction fuel as [|fuel IH]; intros page acc st d st' Hacc Hrun.
  - discriminate.
  - cbn [pulls_loop] in Hrun.
    apply bind_inv in Hrun as (response & st1 & _ & Hrun).
    apply bind_inv in Hrun as (? & st2 & _ & Hrun).
    apply bind_inv in Hrun as (pr_subset & st3 & _ & Hrun).
    destruct pr_subset as [|pr pr_subset].
    + injection Hrun as <- _. exact Hacc.
    + apply bind_inv in Hrun as (prs & st4 & _ & Hrun).
      apply bind_inv in Hrun as (d1 & st5 & Hscan & Hrun).
      eapply IH; [|eassumption].
      eapply scan_pull_requests_judged; eassumption.
Qed.

End Judged.

(** X14.  Every pair in a returned mapping was judged overdue: the key is the
    username of one of the listed pull request's assignees, not its author,
    and that assignee's timestamp was at least the threshold old at one of
    the clock readings. *)
Theorem listed_pairs_were_judged_overdue
    (parse : string -> option datetime) (w : World) (fuel : nat)
    (org_name repo_name : string) (max_waiting_time_in_hours : Z)
    (st st' : State) (d : gmap string (list PullRequest)) :
  get_prs_assigned_to_reviewers parse w fuel org_name repo_name
    max_waiting_time_in_hours st = (Return d, st') ->
  all_judged_overdue w (max_waiting_time_in_hours * 3600 * US_PER_SECOND) d.
Proof.
  unfold get_prs_assigned_to_reviewers, check_token.
  destruct (_TOKEN st); [|discriminate].
  apply (pulls_loop_judged parse w max_waiting_time_in_hours).
  - intros r p d0 ts n threshold Hr Hne Hts Hth Hle Hd0 u prs q Hlook Hin.
    assert (threshold = max_waiting_time_in_hours * 3600 * US_PER_SECOND) as ->.
    { unfold timedelta_hours in Hth. destruct (timedelta_in_range _); congruence. }
    rewrite append_pr_lookup in Hlook.
    destruct (decide (username r = u)) as [<-|Hu].
    + injection Hlook as <-. apply elem_of_app in Hin as [Hin|Hin].
      * destruct (d0 !! username r) as [old|] eqn:Hold; simpl in Hin.
        -- by eapply Hd0.
        -- by apply elem_of_nil in Hin.
      * apply list_elem_of_singleton in Hin as ->.
        exists r, ts, n. by repeat split.
    + by eapply Hd0.
  - intros u prs q Hlook. by rewrite lookup_empty in Hlook.
Qed.

Lemma listed_pairs_were_judged_overdue_witness :
  exists r ts n,
    r ∈ pr_assignees pr42_reconciled /\ username r = "bob"%string /\
    "bob"%string <> author_username pr42_reconciled /\
    assigned_on_timestamp r = Some ts /\
    1 * 3600 * US_PER_SECOND <= datetime_sub (clock scenario_world n) ts.
Proof.
  apply (listed_pairs_were_judged_overdue iso_parse scenario_world 4
           "oppia" "oppia" 1 ready _ _ scenario_run "bob" [pr42_reconciled]).
  - vm_compute. reflexivity.
  - left.
Defined.

Lemma extends_append reviewer pull_request d0 d :
  extends d0 d -> extends d0 (append_pr reviewer pull_request d).
Proof.
  intros Hd u prs Hlook. destruct (Hd u prs Hlook) as [more Hmore].
  rewrite append_pr_lookup. destruct (decide (reviewer = u)) as [->|Hu].
  - rewrite Hmore. simpl. exists (more ++ [pull_request]). by rewrite app_assoc.
  - by exists more.
Qed.

(** X15.  Pages only add: when the listing loop, entered at any page with a
    mapping already collected, returns, every list of that mapping is
    still under its key, in the same order, with the later finds after
    it. *)
Theorem later_pages_only_append
    (parse : string -> option datetime) (w : World) (fuel : nat)
    (org_name repo_name : string) (max_waiting_time_in_hours : Z) (page : nat)
    (st st' : State) (collected d : gmap string (list PullRequest)) :
  pulls_loop parse w fuel org_name repo_name max_waiting_time_in_hours
    page collected st = (Return d, st') ->
  extends collected d.
Proof.
  apply (pulls_loop_preserves parse w (extends collected)).
  - intros. by apply extends_append.
  - intros u prs Hlook. exists []. by rewrite app_nil_r.
Qed.

Lemma later_pages_only_append_witness :
  extends (append_pr "bob" pr42_reconciled ∅)
          (append_pr "bob" pr42_reconciled (append_pr "bob" pr42_reconciled ∅)).
Proof.
  apply (later_pages_only_append iso_parse scenario_world 4 "oppia" "oppia" 1 1
           ready
           (mkState (Some "ghp_token"%string)
              [GetPulls "oppia" "oppia" 1; GetTimeline "oppia" "oppia" 42 1;
               GetTimeline "oppia" "oppia" 42 2; GetTimeline "oppia" "oppia" 42 3;
               GetPulls "oppia" "oppia" 2] 2)).
  vm_compute. reflexivity.
Defined.

(** X16.  The evaluation of a batch of pull requests, when it returns, has sent
    no request and has read the clock once for every assignee of every pull
    request of the batch, the author included. *)
Theorem evaluation_reads_the_clock_per_assignee
    (w : World) (max_waiting_time_in_hours : Z) (pull_requests : list PullRequest)
    (collected d : gmap string (list PullRequest)) (st st' : State) :
  scan_pull_requests w max_waiting_time_in_hours pull_requests collected st
    = (Return d, st') ->
  st' = advanced (length (concat (map pr_assignees pull_requests))) st.
Proof.
  assert (Hrev : forall p reviewers acc s d1 s1,
            scan_reviewers w max_waiting_time_in_hours p reviewers acc s
              = (Return d1, s1) ->
            s1 = advanced (length reviewers) s).
  { intros p reviewers. induction reviewers as [|r rest IH]; intros acc s d1 s1 Hrun.
    - cbn in Hrun. injection Hrun as _ <-. unfold advanced.
      rewrite Nat.add_0_r. by destruct s.
    - cbn [scan_reviewers] in Hrun.
      apply bind_inv in Hrun as (t & s2 & Hnow & Hrun).
      unfold now in Hnow. injection Hnow as _ <-.
      apply bind_inv in Hrun as (pending & s3 & Hpending & Hrun).
      unfold lift in Hpending.
      assert (s3 = ticked s) as -> by (destruct (assigned_on_timestamp r); congruence).
      assert (Hgoal : forall acc', scan_reviewers w max_waiting_time_in_hours p rest
                              acc' (ticked s) = (Return d1, s1) ->
                        s1 = advanced (length (r :: rest)) s).
      { intros acc' H. rewrite (IH _ _ _ _ H). unfold advanced, ticked. simpl.
        f_equal. lia. }
      destruct (negb _); [|by eapply Hgoal].
      apply bind_inv in Hrun as (threshold & s4 & Hth & Hrun).
      unfold lift in Hth.
      assert (s4 = ticked s) as -> by congruence.
      destruct (threshold <=? pending); by eapply Hgoal. }
  revert collected st. induction pull_requests as [|p prs IH]; intros acc st Hrun.
  - cbn in Hrun. injection Hrun as _ <-. unfold advanced. simpl.
    rewrite Nat.add_0_r. by destruct st.
  - cbn [scan_pull_requests] in Hrun. cbn [map concat]. rewrite length_app.
    unfold is_reviewer_assigned in Hrun.
    destruct (pr_assignees p) as [|r rs] eqn:Hp; cbn [negb] in Hrun.
    + rewrite (IH _ _ Hrun). reflexivity.
    + apply bind_inv in Hrun as (d1 & st1 & Hscan & Hrun).
      rewrite <- Hp in Hscan. rewrite (IH _ _ Hrun), (Hrev _ _ _ _ _ _ Hscan).
      rewrite Hp. unfold advanced. simpl. f_equal. lia.
Qed.

Lemma evaluation_reads_the_clock_per_assignee_witness :
  ticked (ticked ready) = advanced 2 ready.
Proof.
  apply (evaluation_reads_the_clock_per_assignee scenario_world 1
           [pr42_reconciled; mkPullRequest 43 "dave" []] ∅
           (append_pr "bob" pr42_reconciled ∅) ready).
  vm_compute. reflexivity.
Defined.

(** ** Instants and fields *)

Lemma month_and_day_back_checked :
  forallb (fun i => month_and_day_counts_back true (Z.of_nat i)
                    && month_and_day_counts_back false (Z.of_nat i))
          (seq 0 365) = true.
Proof. vm_compute. reflexivity. Qed.

Lemma month_and_day_back n leapyear :
  0 <= n < 365 ->
  DAYS_BEFORE_MONTH (fst (month_and_day n leapyear))
  + (if (2 <? fst (month_and_day n leapyear)) && leapyear then 1 else 0)
  + snd (month_and_day n leapyear) = n + 1.
Proof.
  intros Hn.
  pose proof (proj1 (forallb_forall _ _) month_and_day_back_checked (Z.to_nat n)) as H.
  assert (Hin : In (Z.to_nat n) (seq 0 365)) by (apply in_seq; lia).
  specialize (H Hin). cbv beta in H. rewrite Z2Nat.id in H by lia.
  apply andb_true_iff in H as [Ht Hf].
  assert (Hok : month_and_day_counts_back leapyear n = true)
    by (destruct leapyear; assumption).
  unfold month_and_day_counts_back in Hok. cbv zeta in Hok.
  by apply Z.eqb_eq in Hok.
Qed.

Lemma is_leap_of_parts n400 n100 n4 n1 :
  0 <= n100 <= 3 -> 0 <= n4 <= 24 -> 0 <= n1 <= 3 ->
  is_leap (n400 * 400 + 1 + n100 * 100 + n4 * 4 + n1)
  = (n1 =? 3) && (negb (n4 =? 24) || (n100 =? 3)).
Proof.
  intros H100 H4 H1. unfold is_leap.
  destruct (Z.eqb_spec n1 3); destruct (Z.eqb_spec n4 24);
    destruct (Z.eqb_spec n100 3);
    destruct (Z.eqb_spec ((n400 * 400 + 1 + n100 * 100 + n4 * 4 + n1) mod 4) 0);
    destruct (Z.eqb_spec ((n400 * 400 + 1 + n100 * 100 + n4 * 4 + n1) mod 100) 0);
    destruct (Z.eqb_spec ((n400 * 400 + 1 + n100 * 100 + n4 * 4 + n1) mod 400) 0);
    cbn [negb andb orb]; try reflexivity; exfalso;
    Z.div_mod_to_equations; lia.
Qed.

Lemma days_before_year_of_parts n400 n100 n4 n1 :
  0 <= n100 <= 3 -> 0 <= n4 <= 24 -> 0 <= n1 <= 3 ->
  days_before_year (n400 * 400 + 1 + n100 * 100 + n4 * 4 + n1)
  = 146097 * n400 + 36524 * n100 + 1461 * n4 + 365 * n1.
Proof.
  intros H100 H4 H1. unfold days_before_year. cbv zeta.
  Z.div_mod_to_equations. lia.
Qed.

(** The ordinal of the date found for an ordinal is that ordinal. *)
Lemma ymd2ord_ord2ymd n :
  1 <= n <= MAXORDINAL ->
  ymd2ord (fst (fst (ord2ymd n))) (snd (fst (ord2ymd n))) (snd (ord2ymd n)) = n.
Proof.
  intros Hn. unfold MAXORDINAL in Hn. unfold ord2ymd. cbv zeta.
  set (n400 := (n - 1) / 146097).
  set (r400 := (n - 1) mod 146097).
  set (n100 := r400 / 36524).
  set (r100 := r400 mod 36524).
  set (n4 := r100 / 1461).
  set (r4 := r100 mod 1461).
  set (n1 := r4 / 365).
  set (r := r4 mod 365).
  assert (Hfacts :
    n - 1 = 146097 * n400 + r400 /\ 0 <= r400 < 146097 /\
    r400 = 36524 * n100 + r100 /\ 0 <= r100 < 36524 /\
    r100 = 1461 * n4 + r4 /\ 0 <= r4 < 1461 /\
    r4 = 365 * n1 + r /\ 0 <= r < 365).
  { unfold n400, r400, n100, r100, n4, r4, n1, r.
    repeat split; try (apply Z.div_mod; lia); try (apply Z.mod_pos_bound; lia). }
  clearbody n400 r400 n100 r100 n4 r4 n1 r.
  destruct Hfacts as (E400 & B400 & E100 & B100 & E4 & B4 & E1 & B1).
  destruct (Z.eqb_spec n1 4) as [H14|H14];
    [|destruct (Z.eqb_spec n100 4) as [H1004|H1004]]; cbn [orb fst snd].
  - replace (n400 * 400 + 1 + n100 * 100 + n4 * 4 + n1 - 1)
      with (n400 * 400 + 1 + n100 * 100 + n4 * 4 + 3) by lia.
    unfold ymd2ord, days_before_month.
    rewrite is_leap_of_parts, days_before_year_of_parts by lia.
    replace (3 =? 3) with true by reflexivity.
    replace (n4 =? 24) with false by (symmetry; apply Z.eqb_neq; lia).
    cbn. lia.
  - replace (n400 * 400 + 1 + n100 * 100 + n4 * 4 + n1 - 1)
      with (n400 * 400 + 1 + 3 * 100 + 24 * 4 + 3) by lia.
    unfold ymd2ord, days_before_month.
    rewrite is_leap_of_parts, days_before_year_of_parts by lia.
    cbn. lia.
  - unfold ymd2ord, days_before_month.
    rewrite is_leap_of_parts, days_before_year_of_parts by lia.
    pose proof (month_and_day_back r
                  ((n1 =? 3) && (negb (n4 =? 24) || (n100 =? 3))) B1).
    lia.
Qed.

(** What [from_micro] returns denotes the instant it was given. *)
Lemma to_micro_from_micro t d : from_micro t = Return d -> to_micro d = t.
Proof.
  unfold from_micro.
  destruct ((0 <? t / US_PER_DAY) && (t / US_PER_DAY <=? MAXORDINAL)) eqn:Hrange;
    [|discriminate].
  apply andb_true_iff in Hrange as [Hlo Hhi].
  apply Z.ltb_lt in Hlo. apply Z.leb_le in Hhi.
  pose proof (ymd2ord_ord2ymd (t / US_PER_DAY) ltac:(lia)) as Hord.
  destruct (ord2ymd (t / US_PER_DAY)) as [[y m] dd]. cbn [fst snd] in Hord.
  intros [= <-]. unfold to_micro, to_seconds.
  cbn [year month day hour minute second microsecond]. rewrite Hord.
  unfold US_PER_DAY, US_PER_SECOND in *.
  Z.div_mod_to_equations. lia.
Qed.

Lemma ymd2ord_range y m d :
  1 <= y <= 9999 -> 1 <= m <= 12 -> 1 <= d <= days_in_month y m ->
  1 <= ymd2ord y m d <= MAXORDINAL.
Proof.
  intros Hy Hm Hd. unfold ymd2ord.
  pose proof (day_of_year_bounds y m d Hm Hd).
  pose proof (days_before_year_succ y).
  pose proof (days_before_year_mono 1 y ltac:(lia)).
  pose proof (days_before_year_mono (y + 1) 10000 ltac:(lia)).
  change (days_before_year 1) with 0 in *.
  change (days_before_year 10000) with 3652059 in *.
  unfold MAXORDINAL. lia.
Qed.

Lemma lex_eq c rest : lex c rest = Eq -> c = Eq /\ rest = Eq.
Proof. by destruct c. Qed.

(** The date found for the ordinal of a date that exists is that date. *)
Lemma ord2ymd_ymd2ord y m d :
  1 <= y <= 9999 -> 1 <= m <= 12 -> 1 <= d <= days_in_month y m ->
  ord2ymd (ymd2ord y m d) = (y, m, d).
Proof.
  intros Hy Hm Hd.
  pose proof (ymd2ord_range y m d Hy Hm Hd) as Hrange.
  pose proof (ord2ymd_valid _ Hrange) as (Hy' & Hm' & Hd').
  pose proof (ymd2ord_ord2ymd _ Hrange) as Hback.
  destruct (ord2ymd (ymd2ord y m d)) as [[y' m'] d']. cbn [fst snd] in *.
  pose proof (compare_ymd2ord y' m' d' y m d Hm' Hd' Hm Hd) as Hcmp.
  rewrite Hback, Z.compare_refl in Hcmp. symmetry in Hcmp.
  apply lex_eq in Hcmp as [Ey Hcmp]. apply lex_eq in Hcmp as [Em Ed].
  apply Z.compare_eq_iff in Ey, Em, Ed. by subst.
Qed.

(** A datetime that exists is what its own instant is turned back into. *)
Lemma from_micro_to_micro d : valid_datetime d -> from_micro (to_micro d) = Return d.
Proof.
  intros (Hy & Hm & Hd & Hh & Hn & Hs & Hu).
  pose proof (ymd2ord_range _ _ _ Hy Hm Hd) as Hrange.
  pose proof (ord2ymd_ymd2ord _ _ _ Hy Hm Hd) as Hback.
  unfold from_micro, to_micro, to_seconds.
  set (o := ymd2ord (year d) (month d) (day d)) in *.
  unfold US_PER_DAY, US_PER_SECOND, MAXORDINAL in *.
  assert (Hdays : (((o * 24 + hour d) * 60 + minute d) * 60 + second d) * 1000000
                  + microsecond d
                  = o * (86400 * 1000000)
                    + (((hour d * 60 + minute d) * 60 + second d) * 1000000
                       + microsecond d)) by lia.
  rewrite Hdays.
  rewrite Z.div_add_l, Z.div_small, Z.add_0_r by lia.
  rewrite Z.add_comm, Z.mod_add, Z.mod_small by lia.
  replace ((0 <? o) && (o <=? 3652059)) with true
    by (symmetry; apply andb_true_iff; split; [apply Z.ltb_lt | apply Z.leb_le]; lia).
  rewrite Hback.
  assert (Hsecs : (((hour d * 60 + minute d) * 60 + second d) * 1000000 + microsecond d)
                  / 1000000 = (hour d * 60 + minute d) * 60 + second d).
  { Z.div_mod_to_equations. lia. }
  rewrite Hsecs.
  assert (Hus : (((hour d * 60 + minute d) * 60 + second d) * 1000000 + microsecond d)
                mod 1000000 = microsecond d).
  { Z.div_mod_to_equations. lia. }
  rewrite Hus.
  assert (Hhour : ((hour d * 60 + minute d) * 60 + second d) / 3600 = hour d).
  { Z.div_mod_to_equations. lia. }
  assert (Hmin : ((hour d * 60 + minute d) * 60 + second d) mod 3600 / 60 = minute d).
  { Z.div_mod_to_equations. lia. }
  assert (Hsec : ((hour d * 60 + minute d) * 60 + second d) mod 60 = second d).
  { Z.div_mod_to_equations. lia. }
  rewrite Hhour, Hmin, Hsec. by destruct d.
Qed.

Lemma datetime_minus_instant d delta past :
  datetime_minus d delta = Return past -> to_micro past = to_micro d - delta.
Proof. unfold datetime_minus. apply to_micro_from_micro. Qed.

Lemma datetime_minus_outcome d delta :
  datetime_minus d delta = Raise OverflowError \/
  exists past, datetime_minus d delta = Return past.
Proof.
  unfold datetime_minus. generalize (to_micro d - delta). intros t.
  unfold from_micro.
  destruct ((0 <? t / US_PER_DAY) && (t / US_PER_DAY <=? MAXORDINAL)); [|by left].
  destruct (ord2ymd (t / US_PER_DAY)) as [[y m] dd]. right. by eexists.
Qed.

(** X17.  [_get_past_time] reads the clock once and sends nothing.  It either
    raises the overflow error or returns the rendering of a datetime that
    exists and lies exactly [days] days before the reading, microseconds
    included. *)
Theorem past_time_is_days_before_now (w : World) (days : Z) (st : State) :
  exists o,
    _get_past_time w days st = (o, ticked st) /\
    (o = Raise OverflowError \/
     exists past,
       o = Return (strftime past) /\ valid_datetime past /\
       to_micro past = to_micro (clock w (ticks st)) - days * US_PER_DAY).
Proof.
  unfold _get_past_time. unfold bind at 1. unfold now at 1.
  unfold bind at 1. unfold lift at 1. unfold timedelta_days.
  destruct (timedelta_in_range days).
  - unfold bind at 1. unfold lift at 1.
    destruct (datetime_minus_outcome (clock w (ticks st)) (days * US_PER_DAY))
      as [Hpast|[past Hpast]]; rewrite Hpast.
    + eexists. split; [reflexivity|]. by left.
    + eexists. split; [reflexivity|]. right. exists past.
      split; [reflexivity|]. split.
      * exact (datetime_minus_valid _ _ _ Hpast).
      * exact (datetime_minus_instant _ _ _ Hpast).
  - eexists. split; [reflexivity|]. by left.
Qed.

(** X18.  With zero days and a clock reading that exists, [_get_past_time]
    returns the rendering of that reading. *)
Theorem zero_days_ago_is_now (w : World) (st : State) :
  valid_datetime (clock w (ticks st)) ->
  _get_past_time w 0 st = (Return (strftime (clock w (ticks st))), ticked st).
Proof.
  intros Hvalid. unfold _get_past_time. unfold bind at 1. unfold now at 1.
  unfold bind at 1. unfold lift at 1.
  change (timedelta_days 0) with (Return (A:=Z) 0).
  unfold bind at 1. unfold lift at 1. unfold datetime_minus.
  rewrite Z.sub_0_r, from_micro_to_micro by exact Hvalid.
  reflexivity.
Qed.

Example zero_days_ago_in_a_short_year :
  _get_past_time ancient_world 0 ready
  = (Return "999-03-01T13:00:00Z"%string, ticked ready) /\
  _get_past_time ancient_world 60 ready
  = (Return "998-12-31T13:00:00Z"%string, ticked ready).
Proof. split; vm_compute; reflexivity. Qed.

Lemma zero_days_ago_is_now_witness :
  _get_past_time comments_world 0 ready
  = (Return "2024-03-11T13:00:00Z"%string, ticked ready).
Proof.
  apply (zero_days_ago_is_now comments_world ready).
  apply sample_datetime_valid. vm_compute. reflexivity.
Defined.

(** ** Comments listed oldest first *)

Lemma ascii_compare_trans x y z c :
  Ascii.compare x y = c -> Ascii.compare y z = c -> Ascii.compare x z = c.
Proof.
  unfold Ascii.compare.
  generalize (N_of_ascii x), (N_of_ascii y), (N_of_ascii z). intros nx ny nz.
  destruct c; intros H1 H2.
  - apply N.compare_eq_iff in H1, H2. apply N.compare_eq_iff. congruence.
  - apply N.compare_lt_iff in H1. apply N.compare_lt_iff in H2.
    apply N.compare_lt_iff. eapply N.lt_trans; eassumption.
  - apply N.compare_gt_iff in H1. apply N.compare_gt_iff in H2.
    apply N.compare_gt_iff. eapply N.lt_trans; eassumption.
Qed.

Lemma string_compare_lt_le a : forall b c,
  String.compare a b = Lt -> String.compare b c <> Gt -> String.compare a c = Lt.
Proof.
  induction a as [|x a IH]; intros [|y b] [|z c]; simpl; try congruence.
  destruct (Ascii.compare x y) eqn:Exy; try discriminate;
    destruct (Ascii.compare y z) eqn:Eyz; try congruence; intros Hab Hbc.
  - rewrite (ascii_compare_trans _ _ _ _ Exy Eyz). by apply (IH b c).
  - apply Ascii.compare_eq_iff in Exy as ->. by rewrite Eyz.
  - apply Ascii.compare_eq_iff in Eyz as <-. by rewrite Exy.
  - by rewrite (ascii_compare_trans _ _ _ _ Exy Eyz).
Qed.

Lemma str_lt_below a b cutoff :
  str_lt b a = false -> str_lt a cutoff = false -> str_lt b cutoff = false.
Proof.
  unfold str_lt, String.ltb. intros Hba Hac.
  destruct (String.compare b cutoff) eqn:Hbc; try reflexivity.
  assert (String.compare b a = Lt) as Hlt.
  { apply (string_compare_lt_le b cutoff a Hbc).
    rewrite String.compare_antisym.
    destruct (String.compare a cutoff); simpl; congruence. }
  by rewrite Hlt in Hba.
Qed.

Lemma ascending_tail c cs : ascending (c :: cs) -> ascending cs.
Proof.
  intros H i j a b Hij Ha Hb. apply (H (S i) (S j) a b); [lia|done..].
Qed.

(** X19.  When the comments are listed oldest first, stopping at the first
    comment that is not stale loses nothing: the ids collected are those of
    all the fetched comments created before the cutoff, in order. *)
Theorem early_exit_is_a_filter_on_ascending_comments
    (discussion_comments : list Comment) (cutoff : string) :
  ascending discussion_comments ->
  collect_old_comment_ids discussion_comments cutoff []
  = map comment_id
      (List.filter (fun c => str_lt (createdAt c) cutoff) discussion_comments).
Proof.
  intros Hasc.
  assert (H : forall acc,
            collect_old_comment_ids discussion_comments cutoff acc
            = acc ++ map comment_id
                (List.filter (fun c => str_lt (createdAt c) cutoff)
                   discussion_comments)); [|apply (H [])].
  induction discussion_comments as [|c cs IH]; intros acc.
  - simpl. by rewrite app_nil_r.
  - cbn [collect_old_comment_ids List.filter].
    destruct (str_lt (createdAt c) cutoff) eqn:Hc.
    + rewrite IH by (by eapply ascending_tail). cbn [map].
      by rewrite <- app_assoc.
    + assert (Hnone : List.filter (fun c => str_lt (createdAt c) cutoff) cs = []).
      { clear IH. assert (Hall : forall b, b ∈ cs -> str_lt (createdAt b) cutoff = false).
        { intros b Hb. apply list_elem_of_lookup in Hb as [j Hj].
          apply (str_lt_below (createdAt c)); [|exact Hc].
          apply (Hasc 0%nat (S j) c b); [lia|done..]. }
        clear Hasc. induction cs as [|b cs IHcs]; [reflexivity|].
        cbn [List.filter]. rewrite (Hall b) by left.
        apply IHcs. intros b' Hb'. apply Hall. by right. }
      rewrite Hnone. simpl. by rewrite app_nil_r.
Qed.

Lemma early_exit_is_a_filter_on_ascending_comments_witness :
  collect_old_comment_ids (firstn 6 seven_comments) "2024-01-11T13:00:00Z" []
  = map comment_id
      (List.filter (fun c => str_lt (createdAt c) "2024-01-11T13:00:00Z")
         (firstn 6 seven_comments)).
Proof.
  apply (early_exit_is_a_filter_on_ascending_comments (firstn 6 seven_comments)
           "2024-01-11T13:00:00Z").
  intros i j a b Hij Ha Hb.
  do 6 (destruct i as [|i]; [simpl in Ha; injection Ha as <-;
    do 7 (destruct j as [|j]; [try lia; simpl in Hb; try discriminate;
                               try (injection Hb as <-; vm_compute; reflexivity)|]);
    simpl in Hb; discriminate|]).
  simpl in Ha. discriminate.
Defined.

(** Not oldest first, the early exit does lose comments: the seventh of the
    sample comments is older than the cutoff and is not returned. *)
Example early_exit_misses_a_later_stale_comment :
  collect_old_comment_ids seven_comments "2024-01-11T13:00:00Z" []
  <> map comment_id
       (List.filter (fun c => str_lt (createdAt c) "2024-01-11T13:00:00Z")
          seven_comments).
Proof. vm_compute. discriminate. Qed.

(** X20.  A refused comment query ends the sweep: the HTTP error is raised after
    the two lookups and the query, before the clock is read, and no
    deletion is sent. *)
Theorem refused_comment_query_stops_the_sweep
    (w : World) (org_name repo_name discussion_category discussion_title : string)
    (st : State) (cats : list Category) (c : Category)
    (ds : list Discussion) (d : Discussion) :
  _TOKEN st <> None ->
  body (categories w org_name repo_name) = Some cats ->
  find (fun c => String.eqb (name c) discussion_category) cats = Some c ->
  body (discussions w org_name repo_name (category_id c)) = Some ds ->
  find (fun d => String.eqb (title d) discussion_title) ds = Some d ->
  ~ success (comments w org_name repo_name (discussion_number d)) ->
  delete_discussion_comments w org_name repo_name discussion_category
    discussion_title st
  = (Raise HTTPError,
     logged [QueryCategories org_name repo_name;
             QueryDiscussions org_name repo_name (category_id c);
             QueryComments org_name repo_name (discussion_number d)] st).
Proof.
  intros Htok Hcats Hc Hds Hd Hbad.
  unfold delete_discussion_comments, check_token.
  destruct (_TOKEN st) as [tok|] eqn:Etok; [|contradiction].
  unfold bind at 1.
  rewrite (_get_discussion_data_found w _ _ _ _ st cats c ds d)
    by (try assumption; congruence).
  cbn [snd]. unfold bind at 1. unfold _get_old_comment_ids.
  unfold bind at 1. unfold send at 1. unfold bind at 1.
  rewrite raise_for_status_failure by exact Hbad.
  by rewrite logged_logged.
Qed.

Lemma refused_comment_query_stops_the_sweep_witness :
  delete_discussion_comments failing_graphql_world "oppia" "oppia" "Reviews"
    "Pending reviews" ready
  = (Raise HTTPError,
     logged [QueryCategories "oppia" "oppia"; QueryDiscussions "oppia" "oppia" "C_1";
             QueryComments "oppia" "oppia" 5] ready).
Proof.
  apply (refused_comment_query_stops_the_sweep failing_graphql_world
           "oppia" "oppia" "Reviews" "Pending reviews" ready
           [mkCategory "C_1" "Reviews"] (mkCategory "C_1" "Reviews")
           [mkDiscussion "D_1" "Pending reviews" 5]
           (mkDiscussion "D_1" "Pending reviews" 5)).
  - discriminate.
  - reflexivity.
  - reflexivity.
  - reflexivity.
  - reflexivity.
  - intros [H|H]; vm_compute in H; [discriminate | by apply H].
Defined.

(** ** Past the guard *)

Lemma passes_ret {A} (a : A) : passes_the_guard (ret a).
Proof. intros st _. discriminate. Qed.

Lemma passes_lift {A} (o : outcome A) :
  o <> Raise NotInitialized -> passes_the_guard (lift o).
Proof. intros Ho st _. exact Ho. Qed.

Lemma passes_bind {A B} (m : M A) (k : A -> M B) :
  keeps m -> passes_the_guard m -> (forall a, passes_the_guard (k a)) ->
  passes_the_guard (bind m k).
Proof.
  intros Hkeep Hm Hk st Htok. unfold bind.
  specialize (Hkeep st). specialize (Hm st Htok).
  destruct (m st) as [[a|e|] st1]; simpl in *.
  - apply Hk. destruct Hkeep as [Hsame _]. congruence.
  - intros [= ->]. by apply Hm.
  - discriminate.
Qed.

Lemma passes_check_token {A} (m : M A) :
  passes_the_guard m -> passes_the_guard (check_token m).
Proof.
  intros Hm st Htok. unfold check_token.
  destruct (_TOKEN st) eqn:E; [|contradiction]. apply Hm. congruence.
Qed.

Lemma passes_send {A} (req : Request) (resp : Response A) :
  passes_the_guard (send req resp).
Proof. intros st _. discriminate. Qed.

Lemma passes_raise_for_status {A} (r : Response A) :
  passes_the_guard (raise_for_status r).
Proof.
  intros st _. unfold raise_for_status. destruct (_ && _); discriminate.
Qed.

Lemma passes_json {A} (r : Response A) : passes_the_guard (json r).
Proof. intros st _. unfold json. destruct (body r); discriminate. Qed.

Lemma passes_now (w : World) : passes_the_guard (now w).
Proof. intros st _. discriminate. Qed.

Lemma stamp_assignees_error parse l ev e :
  stamp_assignees parse l ev = Raise e -> e = ParserError.
Proof.
  induction l as [|a l IH]; simpl; [discriminate|].
  destruct (String.eqb (assignee ev) (login a)).
  - destruct (parse (event_created_at ev)); [|congruence].
    destruct (stamp_assignees parse l ev); simpl; try discriminate.
    intros [= <-]. by apply IH.
  - destruct (stamp_assignees parse l ev); simpl; try discriminate.
    intros [= <-]. by apply IH.
Qed.

Lemma scan_events_error parse events : forall d u e,
  scan_events parse events d u = Raise e -> e = ParserError.
Proof.
  induction events as [|ev events IH]; intros d u e; simpl; [discriminate|].
  destruct (negb _); [apply IH|].
  unfold get_pull_request_dict_with_timestamp.
  destruct (stamp_assignees parse (assignees d) ev) eqn:Hst; simpl;
    [apply IH | | discriminate].
  intros [= <-]. by eapply stamp_assignees_error.
Qed.

Section Passes.

Variable parse : string -> option datetime.
Variable w : World.

Lemma passes_timeline_loop fuel org_name repo_name pr_num :
  forall page d u,
    passes_the_guard (timeline_loop parse w fuel org_name repo_name pr_num page d u).
Proof.
  induction fuel as [|fuel IH]; intros page d u; cbn [timeline_loop].
  - by apply passes_lift.
  - apply passes_bind; [apply keeps_send | apply passes_send|]. intros response.
    apply passes_bind;
      [apply keeps_raise_for_status | apply passes_raise_for_status|]. intros _.
    apply passes_bind; [apply keeps_json | apply passes_json|].
    intros [|ev evs]; [apply passes_ret|].
    apply passes_bind; [apply keeps_lift| |intros; apply IH].
    apply passes_lift. intros Habs. by apply scan_events_error in Habs.
Qed.

Lemma passes_get_pull_request_object_from_dict fuel org_name repo_name pr_dict :
  passes_the_guard
    (get_pull_request_object_from_dict parse w fuel org_name repo_name pr_dict).
Proof.
  apply passes_check_token.
  apply passes_bind; [apply keeps_timeline_loop | apply passes_timeline_loop|].
  intros locals. destruct (snd locals); [apply passes_ret|].
  intros st _. discriminate.
Qed.

Lemma passes_scan_reviewers h p reviewers :
  forall acc, passes_the_guard (scan_reviewers w h p reviewers acc).
Proof.
  induction reviewers as [|r rest IH]; intros acc; cbn [scan_reviewers].
  - apply passes_ret.
  - apply passes_bind; [apply keeps_now | apply passes_now|]. intros t.
    apply passes_bind; [apply keeps_lift| |].
    { apply passes_lift. destruct (assigned_on_timestamp r); discriminate. }
    intros pending. destruct (negb _); [|apply IH].
    apply passes_bind; [apply keeps_lift| |].
    { apply passes_lift. unfold timedelta_hours.
      destruct (timedelta_in_range _); discriminate. }
    intros threshold. destruct (threshold <=? pending); apply IH.
Qed.

Lemma passes_scan_pull_requests h prs :
  forall acc, passes_the_guard (scan_pull_requests w h prs acc).
Proof.
  induction prs as [|p prs IH]; intros acc; cbn [scan_pull_requests].
  - apply passes_ret.
  - destruct (negb _); [apply IH|].
    apply passes_bind;
      [apply keeps_scan_reviewers | apply passes_scan_reviewers | intros; apply IH].
Qed.

Lemma passes_build_pull_requests fuel org_name repo_name pr_subset :
  passes_the_guard (build_pull_requests parse w fuel org_name repo_name pr_subset).
Proof.
  induction pr_subset as [|pr rest IH]; cbn [build_pull_requests].
  - apply passes_ret.
  - apply passes_bind; [apply keeps_get_pull_request_object_from_dict
                       | apply passes_get_pull_request_object_from_dict|].
    intros p.
    apply passes_bind; [apply keeps_build_pull_requests | apply IH|].
    intros ps. apply passes_ret.
Qed.

Lemma passes_pulls_loop fuel org_name repo_name h :
  forall page acc,
    passes_the_guard (pulls_loop parse w fuel org_name repo_name h page acc).
Proof.
  induction fuel as [|fuel IH]; intros page acc; cbn [pulls_loop].
  - by apply passes_lift.
  - apply passes_bind; [apply keeps_send | apply passes_send|]. intros response.
    apply passes_bind;
      [apply keeps_raise_for_status | apply passes_raise_for_status|]. intros _.
    apply passes_bind; [apply keeps_json | apply passes_json|].
    intros [|pr prs]; [apply passes_ret|].
    apply passes_bind; [apply keeps_build_pull_requests
                       | apply passes_build_pull_requests|]. intros ps.
    apply passes_bind; [apply keeps_scan_pull_requests
                       | apply passes_scan_pull_requests | intros; apply IH].
Qed.

Lemma passes__get_discussion_data org_name repo_name category title_ :
  passes_the_guard (_get_discussion_data w org_name repo_name category title_).
Proof.
  apply passes_check_token.
  apply passes_bind; [apply keeps_send | apply passes_send|]. intros response.
  apply passes_bind; [apply keeps_json | apply passes_json|]. intros cats.
  destruct (find _ cats); [|intros st _; discriminate].
  apply passes_bind; [apply keeps_send | apply passes_send|]. intros response2.
  apply passes_bind; [apply keeps_json | apply passes_json|]. intros ds.
  destruct (find _ ds); [apply passes_ret | intros st _; discriminate].
Qed.

Lemma passes__get_old_comment_ids org_name repo_name n :
  passes_the_guard (_get_old_comment_ids w org_name repo_name n).
Proof.
  apply passes_bind; [apply keeps_send | apply passes_send|]. intros response.
  apply passes_bind;
    [apply keeps_raise_for_status | apply passes_raise_for_status|]. intros _.
  apply passes_bind; [apply keeps_json | apply passes_json|]. intros cs.
  apply passes_bind; [| |intros; apply passes_ret].
  - apply keeps_bind; [apply keeps_now|]. intros t.
    apply keeps_bind; [apply keeps_lift|]. intros delta.
    apply keeps_bind; [apply keeps_lift|]. intros past. apply keeps_ret.
  - apply passes_bind; [apply keeps_now | apply passes_now|]. intros t.
    apply passes_bind; [apply keeps_lift| |].
    { apply passes_lift. unfold timedelta_days.
      destruct (timedelta_in_range _); discriminate. }
    intros delta.
    apply passes_bind; [apply keeps_lift| |intros; apply passes_ret].
    apply passes_lift.
    destruct (datetime_minus_outcome t delta) as [H|[past H]]; rewrite H;
      discriminate.
Qed.

Lemma passes_delete_all ids : passes_the_guard (delete_all w ids).
Proof.
  induction ids as [|i ids IH]; cbn [delete_all]; [apply passes_ret|].
  apply passes_bind; [| |intros; apply IH].
  - apply keeps_bind; [apply keeps_send | intros; apply keeps_raise_for_status].
  - apply passes_bind;
      [apply keeps_send | apply passes_send | intros; apply passes_raise_for_status].
Qed.

End Passes.

(** X21.  Once a token is stored, no guarded operation answers with the
    not-initialised error, whatever the server and the clock do and however
    far the loops run: the guard is the only place that raises it, and the
    token stays set all through a run. *)
Theorem initialised_service_passes_the_guard
    (parse : string -> option datetime) (w : World) (fuel : nat)
    (org_name repo_name discussion_category discussion_title message : string)
    (max_waiting_time_in_hours : Z) (pr_dict : PrDict) (st : State) :
  _TOKEN st <> None ->
  fst (get_prs_assigned_to_reviewers parse w fuel org_name repo_name
         max_waiting_time_in_hours st) <> Raise NotInitialized /\
  fst (get_pull_request_object_from_dict parse w fuel org_name repo_name
         pr_dict st) <> Raise NotInitialized /\
  fst (_get_discussion_data w org_name repo_name discussion_category
         discussion_title st) <> Raise NotInitialized /\
  fst (delete_discussion_comments w org_name repo_name discussion_category
         discussion_title st) <> Raise NotInitialized /\
  fst (add_discussion_comments w org_name repo_name discussion_category
         discussion_title message st) <> Raise NotInitialized.
Proof.
  intros Htok. split; [|split; [|split; [|split]]].
  - exact (passes_check_token _
             (passes_pulls_loop parse w fuel org_name repo_name
                max_waiting_time_in_hours 1%nat ∅) st Htok).
  - exact (passes_get_pull_request_object_from_dict parse w fuel _ _ _ st Htok).
  - exact (passes__get_discussion_data w _ _ _ _ st Htok).
  - revert st Htok. apply passes_check_token.
    apply passes_bind; [apply keeps__get_discussion_data
                       | apply passes__get_discussion_data|]. intros data.
    apply passes_bind; [apply keeps__get_old_comment_ids
                       | apply passes__get_old_comment_ids|]. intros ids.
    apply passes_delete_all.
  - revert st Htok. apply passes_check_token.
    apply passes_bind; [apply keeps__get_discussion_data
                       | apply passes__get_discussion_data|]. intros data.
    apply passes_bind;
      [apply keeps_send | apply passes_send | intros; apply passes_raise_for_status].
Qed.

Lemma initialised_service_passes_the_guard_witness :
  fst (get_prs_assigned_to_reviewers iso_parse unassigned_world 3 "oppia" "oppia"
         24 (snd (init_service (Some "ghp_token"%string) fresh)))
  <> Raise NotInitialized.
Proof.
  apply (initialised_service_passes_the_guard iso_parse unassigned_world 3
           "oppia" "oppia" "Reviews" "Pending reviews" "hello" 24 pr7
           (snd (init_service (Some "ghp_token"%string) fresh))).
  vm_compute. discriminate.
Defined.

(** ** Stale comments, in instants *)





